(** * Package size audit of aws-crt-nodejs

    A shallow embedding of [.builder/actions/crt_size_check.py]
    ([CrtSizeCheck.run]) and the properties of its size accounting.

    The action walks [dist/bin], [dist/browser], [dist/common] and
    [dist/native] under the project path, sums the sizes of the files
    it finds, prints one line per directory and one for the total, and
    raises when the total is above 5,000,000 bytes.

    The program talks to the operating system ([os.walk], [os.stat],
    [os.path.getsize]), to the console ([print]) and may raise.  It is
    embedded in a state-and-error monad over a [World] that holds the
    filesystem and the log of what the program did to its surroundings. *)

From Stdlib Require Import List String ZArith Lia Bool.
From Stdlib Require Import DecimalString DecimalZ DecimalPos Permutation.
Import ListNotations.
Local Open Scope string_scope.
Local Open Scope Z_scope.

(* ================================================================= *)
(** ** The filesystem *)

(** A path is the list of its components, counted from the root of the
    modelled filesystem; [os.path.join] appends.  A file name is a
    single component, and ['dist/bin'] is the two components [dist] and
    [bin]. *)
Definition path := list string.

Definition os_path_join (a b : path) : path := (a ++ b)%list.

(** The text of a path, as an f-string shows it. *)
Definition path_str (p : path) : string := "/" ++ String.concat "/" p.

(** Regular files and directories.  Both carry the size [stat] reports
    for them; a directory lists its entries in the order [scandir]
    hands them out.  Links and special files are left out: the
    properties below are about regular files. *)
#[local] Unset Elimination Schemes.
Inductive node : Type :=
| File (size : Z)
| Dir (size : Z) (entries : list (string * node)).
#[local] Set Elimination Schemes.

Definition is_dir (n : node) : bool :=
  match n with
  | File _ => false
  | Dir _ _ => true
  end.

Definition node_size (n : node) : Z :=
  match n with
  | File s => s
  | Dir s _ => s
  end.

Definition lookup_entry (name : string) (entries : list (string * node))
  : option node :=
  match find (fun e => String.eqb name (fst e)) entries with
  | Some e => Some (snd e)
  | None => None
  end.

(** Path resolution: follow the components down from [n]. *)
Fixpoint resolve (n : node) (p : path) : option node :=
  match p with
  | [] => Some n
  | c :: p' =>
      match n with
      | File _ => None
      | Dir _ entries =>
          match lookup_entry c entries with
          | Some m => resolve m p'
          | None => None
          end
      end
  end.

(** A filesystem is well formed when no directory holds two entries of
    one name. *)
Fixpoint distinct (l : list string) : bool :=
  match l with
  | [] => true
  | x :: t => negb (existsb (String.eqb x) t) && distinct t
  end.

Fixpoint well_formed (n : node) : bool :=
  match n with
  | File _ => true
  | Dir _ entries =>
      distinct (map fst entries)
      && forallb (fun e => well_formed (snd e)) entries
  end.

(* ================================================================= *)
(** ** [os.walk]

    [os.walk(top)] with its defaults (top-down, [onerror=None], links
    not followed).  A [top] that is missing or is not a directory makes
    [scandir] fail, the failure is swallowed and nothing is yielded.
    Otherwise the directory yields [(top, dirs, nondirs)] and then the
    walks of its subdirectories, in listing order.  [os.walk] reaches a
    subdirectory through [join(top, dirname)]; here the walk descends
    into the entry itself, and an entry that is a regular file yields
    nothing.  The generator is taken as the list of what it yields. *)

Definition walk_item : Type := path * list string * list string.

Definition dirs_of (entries : list (string * node)) : list string :=
  map fst (filter (fun e => is_dir (snd e)) entries).

Definition nondirs_of (entries : list (string * node)) : list string :=
  map fst (filter (fun e => negb (is_dir (snd e))) entries).

Fixpoint walk (top : path) (n : node) {struct n} : list walk_item :=
  match n with
  | File _ => []
  | Dir _ entries =>
      (top, dirs_of entries, nondirs_of entries)
        :: flat_map (fun e => walk (os_path_join top [fst e]) (snd e)) entries
  end.

Definition walk_from (root : node) (top : path) : list walk_item :=
  match resolve root top with
  | Some n => walk top n
  | None => []
  end.

(* ================================================================= *)
(** ** The world and the monad *)

Inductive exn : Type :=
| Exception (msg : string)
| OSError (filename : path).

(** What the program does to its surroundings, in order: a loop over
    [os.walk(top)] starts, a path is handed to [os.stat], a line is
    printed. *)
Inductive event : Type :=
| EWalk (top : path)
| EStat (p : path)
| EPrint (line : string).

Record World : Type := mkWorld { fs : node; trace : list event }.

Definition log (w : World) (evs : list event) : World :=
  {| fs := fs w; trace := (trace w ++ evs)%list |}.

Definition printed (e : event) : list string :=
  match e with
  | EPrint line => [line]
  | _ => []
  end.

(** The console: the lines printed so far. *)
Definition stdout (w : World) : list string := flat_map printed (trace w).

Definition M (A : Type) : Type := World -> World * (exn + A).

Definition ret {A} (a : A) : M A := fun w => (w, inr a).

Definition raise {A} (e : exn) : M A := fun w => (w, inl e).

Definition bind {A B} (m : M A) (k : A -> M B) : M B :=
  fun w =>
    match m w with
    | (w', inr a) => k a w'
    | (w', inl e) => (w', inl e)
    end.

Notation "x <- m ;; k" := (bind m (fun x => k))
  (at level 61, m at next level, right associativity).
Notation "m ;; k" := (bind m (fun _ => k))
  (at level 61, right associativity).

(** [for x in xs: acc = body x acc] *)
Fixpoint for_each {A S} (xs : list A) (body : A -> S -> M S) (acc : S) : M S :=
  match xs with
  | [] => ret acc
  | x :: xs' => acc' <- body x acc ;; for_each xs' body acc'
  end.

(** *** The primitives *)

Definition print (line : string) : M unit :=
  fun w => (log w [EPrint line], inr tt).

Definition os_walk (top : path) : M (list walk_item) :=
  fun w => (log w [EWalk top], inr (walk_from (fs w) top)).

Record stat_result : Type := { st_size : Z }.

Definition os_stat (p : path) : M stat_result :=
  fun w =>
    match resolve (fs w) p with
    | Some n => (log w [EStat p], inr {| st_size := node_size n |})
    | None => (log w [EStat p], inl (OSError p))
    end.

(** [genericpath.getsize]: [return os.stat(filename).st_size]. *)
Definition os_path_getsize (p : path) : M Z :=
  st <- os_stat p ;; ret (st_size st).

(** [str] of an integer. *)
Definition str (z : Z) : string := NilZero.string_of_int (Z.to_int z).

(* ================================================================= *)
(** ** [CrtSizeCheck.run] *)

(** [env.project.path] *)
Record Env : Type := { project_path : path }.

Module CrtSizeCheck.

(** Maximum package size in bytes (line 12). *)
Definition max_size : Z := 5000000.

Definition artifact_name : string := "aws-crt-nodejs.node".

Definition file_size_line (fp : path) (size : Z) : string :=
  path_str fp ++ " file size: " ++ str size.

Definition folder_line (folder : string) (folder_size : Z) : string :=
  folder ++ " files size: " ++ str folder_size ++ " bytes".

Definition total_line (total_size : Z) : string :=
  "Total NPM package file size: " ++ str total_size ++ " bytes".

(** Body of the inner loop over [dist/bin] (lines 21-27). *)
Definition bin_file_step (root : path) (f : string) (folder_size : Z) : M Z :=
  (if String.eqb artifact_name f then
     let fp := os_path_join root [f] in
     st <- os_stat fp ;;
     print (file_size_line fp (st_size st))
   else ret tt) ;;
  let fp := os_path_join root [f] in
  sz <- os_path_getsize fp ;;
  ret (folder_size + sz).

(** Body of the inner loop over the other three directories. *)
Definition file_step (root : path) (f : string) (folder_size : Z) : M Z :=
  let fp := os_path_join root [f] in
  sz <- os_path_getsize fp ;;
  ret (folder_size + sz).

Definition files_loop (step : path -> string -> Z -> M Z)
  (it : walk_item) (folder_size : Z) : M Z :=
  let '(root, _, files) := it in
  for_each files (step root) folder_size.

Definition run (env : Env) : M unit :=
  let folder_size := 0 in
  let total_size := 0 in
  items <- os_walk (os_path_join (project_path env) ["dist"; "bin"]) ;;
  folder_size <- for_each items (files_loop bin_file_step) folder_size ;;
  print (folder_line "dist/bin" folder_size) ;;
  let total_size := total_size + folder_size in
  let folder_size := 0 in
  items <- os_walk (os_path_join (project_path env) ["dist"; "browser"]) ;;
  folder_size <- for_each items (files_loop file_step) folder_size ;;
  print (folder_line "dist/browser" folder_size) ;;
  let total_size := total_size + folder_size in
  let folder_size := 0 in
  items <- os_walk (os_path_join (project_path env) ["dist"; "common"]) ;;
  folder_size <- for_each items (files_loop file_step) folder_size ;;
  print (folder_line "dist/common" folder_size) ;;
  let total_size := total_size + folder_size in
  let folder_size := 0 in
  items <- os_walk (os_path_join (project_path env) ["dist"; "native"]) ;;
  folder_size <- for_each items (files_loop file_step) folder_size ;;
  print (folder_line "dist/native" folder_size) ;;
  let total_size := total_size + folder_size in
  print (total_line total_size) ;;
  if total_size >? max_size then
    raise (Exception "NPM package exceeds size limit")
  else ret tt.

End CrtSizeCheck.
Import CrtSizeCheck.

(* ================================================================= *)
(** ** The files under a directory

    What the accounting is measured against: every regular file below
    a directory, with the directory it lies in, its name and its size.
    A path that is missing or names a regular file has no files under
    it. *)

Local Open Scope list_scope.

Definition file_entry : Type := path * string * Z.

Definition entry_path (x : file_entry) : path :=
  let '(root, f, _) := x in os_path_join root [f].

Definition entry_name (x : file_entry) : string :=
  let '(_, f, _) := x in f.

Definition entry_size (x : file_entry) : Z :=
  let '(_, _, s) := x in s.

Definition own_files (top : path) (entries : list (string * node))
  : list file_entry :=
  flat_map (fun e => match snd e with
                     | File s => [(top, fst e, s)]
                     | Dir _ _ => []
                     end) entries.

Fixpoint files_under (top : path) (n : node) {struct n} : list file_entry :=
  match n with
  | File _ => []
  | Dir _ entries =>
      (own_files top entries
         ++ flat_map (fun e => files_under (os_path_join top [fst e]) (snd e))
              entries)%list
  end.

Definition files_from (root : node) (top : path) : list file_entry :=
  match resolve root top with
  | Some n => files_under top n
  | None => []
  end.

Definition sum_sizes (l : list file_entry) : Z :=
  fold_right (fun x acc => entry_size x + acc) 0 l.

(** The four tracked directories, relative to the project path. *)
Definition dist_bin : path := ["dist"; "bin"].
Definition dist_browser : path := ["dist"; "browser"].
Definition dist_common : path := ["dist"; "common"].
Definition dist_native : path := ["dist"; "native"].

Definition tracked_directories : list path :=
  [dist_bin; dist_browser; dist_common; dist_native].

Definition tracked_files (env : Env) (root : node) (d : path)
  : list file_entry :=
  files_from root (os_path_join (project_path env) d).

Definition all_tracked_files (env : Env) (root : node) : list file_entry :=
  flat_map (tracked_files env root) tracked_directories.

Definition subtotal (env : Env) (root : node) (d : path) : Z :=
  sum_sizes (tracked_files env root d).

Definition grand_total (env : Env) (root : node) : Z :=
  subtotal env root dist_bin + subtotal env root dist_browser
  + subtotal env root dist_common + subtotal env root dist_native.

Definition is_artifact (x : file_entry) : bool :=
  String.eqb artifact_name (entry_name x).

(** The per-file lines of the designated artifact. *)
Definition artifact_reports (l : list file_entry) : list string :=
  map (fun x => file_size_line (entry_path x) (entry_size x))
    (filter is_artifact l).

(* ================================================================= *)
(** ** Induction on the filesystem tree *)

Section NodeInd.
Variable P : node -> Prop.
Hypothesis HFile : forall s, P (File s).
Hypothesis HDir : forall s entries,
    Forall (fun e => P (snd e)) entries -> P (Dir s entries).

Fixpoint node_ind (n : node) : P n :=
  match n with
  | File s => HFile s
  | Dir s entries =>
      HDir s entries
        ((fix go (l : list (string * node)) : Forall (fun e => P (snd e)) l :=
            match l with
            | [] => Forall_nil _
            | e :: l' => Forall_cons e (node_ind (snd e)) (go l')
            end) entries)
  end.
End NodeInd.

(* ================================================================= *)
(** ** What the loops run over *)

Definition entry_key (x : file_entry) : path * string :=
  let '(root, f, _) := x in (root, f).

(** The [(root, f)] pairs the two nested loops run over. *)
Definition walk_pairs (items : list walk_item) : list (path * string) :=
  flat_map (fun it : walk_item =>
              let '(root, _, files) := it in map (pair root) files) items.

(* ================================================================= *)
(** ** The trace of a run

    What a run on a well-formed filesystem is shown to do
    ([run_spec] below). *)

(** The events of one pass through the loop body for file [x]. *)
Definition plain_events (x : file_entry) : list event :=
  [EStat (entry_path x)].

Definition bin_events (x : file_entry) : list event :=
  if is_artifact x then
    [EStat (entry_path x);
     EPrint (file_size_line (entry_path x) (entry_size x));
     EStat (entry_path x)]
  else [EStat (entry_path x)].

(** The events of one directory: the walk, the loop bodies, the
    subtotal line. *)
Definition folder_trace (events_of : file_entry -> list event)
  (env : Env) (root : node) (d : path) (label : string) : list event :=
  EWalk (os_path_join (project_path env) d)
    :: flat_map events_of (tracked_files env root d)
    ++ [EPrint (folder_line label (subtotal env root d))].

Definition audit_trace (env : Env) (root : node) : list event :=
  folder_trace bin_events env root dist_bin "dist/bin"
  ++ folder_trace plain_events env root dist_browser "dist/browser"
  ++ folder_trace plain_events env root dist_common "dist/common"
  ++ folder_trace plain_events env root dist_native "dist/native"
  ++ [EPrint (total_line (grand_total env root))].

Definition size_limit_error : exn :=
  Exception "NPM package exceeds size limit".

Definition verdict (total_size : Z) : exn + unit :=
  if total_size >? max_size then inl size_limit_error else inr tt.

(** The console lines of a run. *)
Definition audit_stdout (env : Env) (root : node) : list string :=
  artifact_reports (tracked_files env root dist_bin)
  ++ [folder_line "dist/bin" (subtotal env root dist_bin);
      folder_line "dist/browser" (subtotal env root dist_browser);
      folder_line "dist/common" (subtotal env root dist_common);
      folder_line "dist/native" (subtotal env root dist_native);
      total_line (grand_total env root)].

(** What a loop body does with a file that [os.stat] finds. *)
Definition step_spec (step : path -> string -> Z -> M Z)
  (events_of : file_entry -> list event) : Prop :=
  forall w x acc,
    resolve (fs w) (entry_path x) = Some (File (entry_size x)) ->
    step (fst (entry_key x)) (snd (entry_key x)) acc w =
    (log w (events_of x), inr (acc + entry_size x)).

(* ================================================================= *)
(** ** Invariants of computations *)

(** The computation leaves the filesystem as it found it. *)
Definition keeps_fs {A} (m : M A) : Prop :=
  forall w, fs (fst (m w)) = fs w.


(* ================================================================= *)
(** ** Concrete filesystems *)

Definition project_with (dist : list (string * node)) : node :=
  Dir 4096
    [("proj",
      Dir 4096 [("dist", Dir 4096 dist); ("package.json", File 77)])].

Definition sample_env : Env := {| project_path := ["proj"] |}.

Definition world_of (root : node) : World := {| fs := root; trace := [] |}.

(** bin {1000, 2000}, browser {3000}, common {}, native {4000}. *)
Definition scenario_fs : node :=
  project_with
    [("bin", Dir 4096 [("cli.js", File 1000); ("cli.js.map", File 2000)]);
     ("browser", Dir 4096 [("index.js", File 3000)]);
     ("common", Dir 4096 []);
     ("native", Dir 4096 [("binding.js", File 4000)])].

(** The artifact below [dist/bin], and a file of the same name below
    [dist/native]; [dist/browser] and [dist/common] are missing. *)
Definition artifact_fs : node :=
  project_with
    [("bin",
      Dir 4096
        [("linux-x64", Dir 4096 [("aws-crt-nodejs.node", File 500);
                                 ("notes.txt", File 1000)]);
         ("readme", File 2000)]);
     ("native", Dir 4096 [("aws-crt-nodejs.node", File 4000)])].

Definition at_limit_fs : node :=
  project_with [("native", Dir 4096 [("binding.node", File 5000000)])].

Definition over_limit_fs : node :=
  project_with [("native", Dir 4096 [("binding.node", File 5000001)])].

Definition far_over_limit_fs : node :=
  project_with [("native", Dir 4096 [("binding.node", File 6000000)])].


(** Nothing at all below the root: the project itself is missing. *)
Definition bare_fs : node := Dir 4096 [].

Definition absent_or_empty (root : node) (p : path) : bool :=
  match resolve root p with
  | None => true
  | Some (Dir _ []) => true
  | Some _ => false
  end.

(* ================================================================= *)
(** ** What the outcome depends on *)

(** A file as the accounting sees it: its path and its size. *)
Definition entry_listing (x : file_entry) : path * Z :=
  (entry_path x, entry_size x).

Definition listing (root : node) (top : path) : list (path * Z) :=
  map entry_listing (files_from root top).

Definition listing_is_artifact (ps : path * Z) : bool :=
  String.eqb artifact_name (last (fst ps) "").

Definition listing_line (ps : path * Z) : string :=
  file_size_line (fst ps) (snd ps).

(** The two filesystems hold the same regular files, with the same
    sizes, strictly below [top]. *)
Definition same_regular_files (r1 r2 : node) (top : path) : Prop :=
  forall rel s,
    rel <> [] ->
    (resolve r1 (top ++ rel) = Some (File s)
     <-> resolve r2 (top ++ rel) = Some (File s)).

(** Strictly below [top], the second filesystem holds the regular
    files of the first and one more: [p], of size [s]. *)
Definition adds_regular_file (r1 r2 : node) (top p : path) (s : Z) : Prop :=
  (exists rel, rel <> [] /\ p = top ++ rel) /\
  (forall s', resolve r1 p <> Some (File s')) /\
  (forall rel s',
      rel <> [] ->
      (resolve r2 (top ++ rel) = Some (File s')
       <-> (top ++ rel = p /\ s' = s)
           \/ resolve r1 (top ++ rel) = Some (File s'))).

(** No regular file lies strictly below [top]. *)
Definition no_regular_files (r : node) (top : path) : Prop :=
  forall rel s, rel <> [] -> resolve r (top ++ rel) <> Some (File s).

Definition is_stat (e : event) : bool :=
  match e with
  | EStat _ => true
  | _ => false
  end.

Definition is_walk (e : event) : bool :=
  match e with
  | EWalk _ => true
  | _ => false
  end.

Definition count_events (f : event -> bool) (t : list event) : nat :=
  List.length (filter f t).

(** The files of [scenario_fs], listed in another order, below
    directories of other sizes, beside files that are not tracked. *)
Definition shuffled_fs : node :=
  Dir 0
    [("etc", File 9);
     ("proj",
      Dir 1
        [("package.json", File 78);
         ("dist",
          Dir 2
            [("native", Dir 3 [("binding.js", File 4000)]);
             ("LICENSE", File 123456789);
             ("common", Dir 0 [("empty", Dir 0 [])]);
             ("browser", Dir 5 [("index.js", File 3000)]);
             ("bin", Dir 6 [("cli.js.map", File 2000);
                            ("cli.js", File 1000)])])])].

(** [scenario_fs] with one more file below [dist/bin]. *)
Definition grown_fs : node :=
  project_with
    [("bin", Dir 4096 [("cli.js", File 1000); ("cli.js.map", File 2000);
                       ("linux-x64",
                        Dir 4096 [("aws-crt-nodejs.node", File 4990001)])]);
     ("browser", Dir 4096 [("index.js", File 3000)]);
     ("common", Dir 4096 []);
     ("native", Dir 4096 [("binding.js", File 4000)])].

(** [dist/bin] is a regular file of 9,000,000 bytes, [dist/browser]
    holds empty directories only, [dist/common] is missing and
    [dist/native] is empty. *)
Definition hollow_fs : node :=
  project_with
    [("bin", File 9000000);
     ("browser", Dir 4096 [("a", Dir 4096 [("b", Dir 4096 [])]);
                           ("c", Dir 4096 [])]);
     ("native", Dir 4096 [])].

(* ================================================================= *)
(** * Properties *)

(* ================================================================= *)
(** ** Names, lookup and resolution *)

Lemma distinct_NoDup (l : list string) :
  distinct l = true <-> NoDup l.
Proof.
  induction l as [|x t IH]; simpl.
  - split; [constructor | reflexivity].
  - rewrite andb_true_iff, negb_true_iff, NoDup_cons_iff, IH.
    assert (Hx : existsb (String.eqb x) t = false <-> ~ In x t).
    { split.
      - intros He Hin.
        assert (existsb (String.eqb x) t = true) as Ht.
        { apply existsb_exists. exists x. split; [assumption|apply String.eqb_refl]. }
        congruence.
      - intros Hn. destruct (existsb (String.eqb x) t) eqn:He; [|reflexivity].
        apply existsb_exists in He as [y [Hy Heq]].
        apply String.eqb_eq in Heq. subst y. contradiction. }
    tauto.
Qed.

Lemma lookup_entry_in (name : string) (child : node) entries :
  NoDup (map fst entries) ->
  In (name, child) entries ->
  lookup_entry name entries = Some child.
Proof.
  unfold lookup_entry.
  induction entries as [|[k v] l IH]; simpl; intros Hnd Hin; [contradiction|].
  apply NoDup_cons_iff in Hnd as [Hk Hnd].
  destruct Hin as [Heq | Hin].
  - inversion Heq; subst. now rewrite String.eqb_refl.
  - destruct (String.eqb name k) eqn:E.
    + apply String.eqb_eq in E. subst k. exfalso. apply Hk.
      change name with (fst (name, child)). now apply in_map.
    + now apply IH.
Qed.

Lemma lookup_entry_some (name : string) (child : node) entries :
  lookup_entry name entries = Some child -> In (name, child) entries.
Proof.
  unfold lookup_entry.
  destruct (find _ entries) as [[k v]|] eqn:E; [|discriminate].
  intros H. inversion H; subst. apply find_some in E as [Hin Hk].
  simpl in Hk. apply String.eqb_eq in Hk. now subst.
Qed.

Lemma resolve_app (n : node) (p q : path) :
  resolve n (p ++ q) =
  match resolve n p with
  | Some m => resolve m q
  | None => None
  end.
Proof.
  revert n. induction p as [|c p IH]; intros n; simpl; [reflexivity|].
  destruct n as [s|s entries]; [reflexivity|].
  destruct (lookup_entry c entries); [apply IH | reflexivity].
Qed.

Lemma well_formed_dir s entries :
  well_formed (Dir s entries) = true ->
  NoDup (map fst entries) /\
  (forall e, In e entries -> well_formed (snd e) = true).
Proof.
  simpl. rewrite andb_true_iff, distinct_NoDup, forallb_forall. tauto.
Qed.

Lemma well_formed_resolve (n m : node) (p : path) :
  well_formed n = true -> resolve n p = Some m -> well_formed m = true.
Proof.
  revert n. induction p as [|c p IH]; intros n Hwf; simpl.
  - intros H. now inversion H; subst.
  - destruct n as [s|s entries]; [discriminate|].
    destruct (lookup_entry c entries) as [k|] eqn:E; [|discriminate].
    apply well_formed_dir in Hwf as [_ Hall].
    apply lookup_entry_some in E. apply IH. exact (Hall _ E).
Qed.

(* ================================================================= *)
(** ** What the walk yields *)

Lemma walk_pairs_app (a b : list walk_item) :
  walk_pairs (a ++ b) = walk_pairs a ++ walk_pairs b.
Proof. apply flat_map_app. Qed.

Lemma nondirs_own_files (top : path) entries :
  map (pair top) (nondirs_of entries) = map entry_key (own_files top entries).
Proof.
  unfold nondirs_of, own_files.
  induction entries as [|[k v] l IH]; simpl; [reflexivity|].
  destruct v as [s|s es]; simpl; now rewrite IH.
Qed.

Lemma walk_pairs_files_under (n : node) :
  forall top, walk_pairs (walk top n) = map entry_key (files_under top n).
Proof.
  induction n as [s|s entries IH] using node_ind; intros top; [reflexivity|].
  simpl. rewrite map_app, nondirs_own_files. f_equal.
  induction IH as [|e l He _ IHl]; simpl; [reflexivity|].
  now rewrite walk_pairs_app, map_app, He, IHl.
Qed.

(** *** The files under a directory *)

Lemma in_own_files (top : path) entries (x : file_entry) :
  In x (own_files top entries) <->
  exists name s, In (name, File s) entries /\ x = (top, name, s).
Proof.
  unfold own_files. rewrite in_flat_map. split.
  - intros [[k v] [Hin Hx]]. simpl in Hx.
    destruct v as [s|s es]; [|contradiction].
    destruct Hx as [<-|[]]. now exists k, s.
  - intros [name [s [Hin ->]]]. exists (name, File s). simpl. auto.
Qed.

(** Every listed file lies strictly below [top]. *)
Lemma files_under_below (n : node) :
  forall top x, In x (files_under top n) ->
  exists name child rel,
    entry_path x = top ++ name :: rel /\
    match n with
    | File _ => False
    | Dir _ entries => In (name, child) entries
    end.
Proof.
  induction n as [s|s entries IH] using node_ind; intros top x Hin;
    [contradiction|].
  simpl in Hin. apply in_app_or in Hin as [Hin|Hin].
  - apply in_own_files in Hin as [name [sz [Hin ->]]].
    exists name, (File sz), []. now split.
  - apply in_flat_map in Hin as [[k v] [Hin Hx]]. simpl in Hx.
    rewrite Forall_forall in IH.
    destruct (IH _ Hin _ _ Hx) as [name [child [rel [Hp _]]]].
    exists k, v, (name :: rel). split; [|assumption].
    rewrite Hp. unfold os_path_join. now rewrite <- app_assoc.
Qed.

(** Soundness: a listed file is found at its path, with its size. *)
Lemma files_under_sound (n : node) :
  forall top x,
    well_formed n = true ->
    In x (files_under top n) ->
    exists rel, rel <> [] /\ entry_path x = top ++ rel /\
                resolve n rel = Some (File (entry_size x)).
Proof.
  induction n as [s|s entries IH] using node_ind; intros top x Hwf Hin;
    [contradiction|].
  apply well_formed_dir in Hwf as [Hnd Hall].
  simpl in Hin. apply in_app_or in Hin as [Hin|Hin].
  - apply in_own_files in Hin as [name [sz [Hin ->]]].
    exists [name]. repeat split; [discriminate|].
    simpl. now rewrite (lookup_entry_in _ _ _ Hnd Hin).
  - apply in_flat_map in Hin as [[k v] [Hin Hx]]. simpl in Hx.
    rewrite Forall_forall in IH.
    destruct (IH _ Hin _ _ (Hall _ Hin) Hx) as [rel [Hne [Hp Hr]]].
    exists (k :: rel). repeat split; [discriminate| |].
    + rewrite Hp. unfold os_path_join. now rewrite <- app_assoc.
    + simpl. now rewrite (lookup_entry_in _ _ _ Hnd Hin).
Qed.

(** Completeness: a regular file strictly below [n] is listed. *)
Lemma files_under_complete (rel : path) :
  forall n top s,
    rel <> [] ->
    resolve n rel = Some (File s) ->
    exists x, In x (files_under top n) /\
              entry_path x = top ++ rel /\ entry_size x = s.
Proof.
  induction rel as [|c rel IH]; intros n top s Hne Hr; [congruence|].
  simpl in Hr. destruct n as [sz|sz entries]; [discriminate|].
  destruct (lookup_entry c entries) as [m|] eqn:E; [|discriminate].
  apply lookup_entry_some in E.
  destruct rel as [|c' rel'].
  - simpl in Hr. inversion Hr; subst m.
    exists (top, c, s). repeat split. simpl. apply in_or_app. left.
    apply in_own_files. now exists c, s.
  - destruct (IH m (os_path_join top [c]) s) as [x [Hin [Hp Hs]]];
      [discriminate|assumption|].
    exists x. repeat split; [|now rewrite Hp; unfold os_path_join;
                                rewrite <- app_assoc|assumption].
    simpl. apply in_or_app. right. apply in_flat_map.
    exists (c, m). now split.
Qed.

(** *** No file is listed twice *)

Lemma own_files_paths (top : path) entries (p : path) :
  In p (map entry_path (own_files top entries)) ->
  exists name, In name (map fst entries) /\ p = top ++ [name].
Proof.
  intros Hin. apply in_map_iff in Hin as [x [<- Hin]].
  apply in_own_files in Hin as [name [s [Hin ->]]].
  exists name. split; [|reflexivity].
  change name with (fst (name, File s)). now apply in_map.
Qed.

Lemma children_paths (top : path) entries (p : path) :
  In p (map entry_path
          (flat_map (fun e => files_under (os_path_join top [fst e]) (snd e))
             entries)) ->
  exists k name rel, In k (map fst entries) /\ p = top ++ k :: name :: rel.
Proof.
  intros Hin. apply in_map_iff in Hin as [x [<- Hin]].
  apply in_flat_map in Hin as [[k v] [Hin Hx]]. simpl in Hx.
  apply files_under_below in Hx as [name [child [rel [Hp _]]]].
  exists k, name, rel. split.
  - change k with (fst (k, v)). now apply in_map.
  - rewrite Hp. unfold os_path_join. now rewrite <- app_assoc.
Qed.

Lemma own_files_NoDup (top : path) entries :
  NoDup (map fst entries) -> NoDup (map entry_path (own_files top entries)).
Proof.
  induction entries as [|[k v] l IH]; simpl; intros Hnd; [constructor|].
  apply NoDup_cons_iff in Hnd as [Hk Hnd].
  destruct v as [s|s es]; simpl; [|now apply IH].
  constructor; [|now apply IH].
  intros Hin. apply own_files_paths in Hin as [name [Hin Heq]].
  unfold os_path_join in Heq. apply app_inv_head in Heq.
  inversion Heq; subst. contradiction.
Qed.

Lemma files_under_NoDup (n : node) :
  forall top, well_formed n = true ->
              NoDup (map entry_path (files_under top n)).
Proof.
  induction n as [s|s entries IH] using node_ind; intros top Hwf;
    [constructor|].
  apply well_formed_dir in Hwf as [Hnd Hall].
  simpl. rewrite map_app. apply NoDup_app.
  - now apply own_files_NoDup.
  - clear s. induction entries as [|[k v] l IHl]; simpl; [constructor|].
    apply Forall_cons_iff in IH as [Hv IH]. simpl in Hnd.
    apply NoDup_cons_iff in Hnd as [Hk Hnd].
    rewrite map_app. apply NoDup_app.
    + apply Hv. apply (Hall (k, v)). now left.
    + apply IHl; [assumption|assumption|].
      intros e He. apply Hall. now right.
    + intros p Hp Hq. apply in_map_iff in Hp as [x [<- Hx]].
      apply files_under_below in Hx as [name [child [rel [Hx _]]]].
      apply children_paths in Hq as [k' [name' [rel' [Hk' Heq]]]].
      rewrite Hx in Heq. unfold os_path_join in Heq.
      rewrite <- app_assoc in Heq. apply app_inv_head in Heq.
      inversion Heq; subst. contradiction.
  - intros p Hp Hq.
    apply own_files_paths in Hp as [name [_ ->]].
    apply children_paths in Hq as [k [name' [rel [_ Heq]]]].
    apply app_inv_head in Heq. discriminate.
Qed.

(** *** The same, from the root of the filesystem *)

Lemma files_from_iff (root : node) (top : path) (p : path) (s : Z) :
  well_formed root = true ->
  (exists x, In x (files_from root top) /\ entry_path x = p /\ entry_size x = s)
  <->
  (exists rel, rel <> [] /\ p = top ++ rel /\ resolve root p = Some (File s)).
Proof.
  intros Hwf. unfold files_from. split.
  - intros [x [Hin [<- <-]]].
    destruct (resolve root top) as [n|] eqn:E; [|contradiction].
    apply files_under_sound in Hin as [rel [Hne [Hp Hr]]];
      [|now apply (well_formed_resolve root n top)].
    exists rel. repeat split; [assumption..|].
    now rewrite Hp, resolve_app, E.
  - intros [rel [Hne [-> Hr]]]. rewrite resolve_app in Hr.
    destruct (resolve root top) as [n|] eqn:E; [|discriminate].
    now apply files_under_complete.
Qed.

Lemma files_from_resolve (root : node) (top : path) (x : file_entry) :
  well_formed root = true ->
  In x (files_from root top) ->
  resolve root (entry_path x) = Some (File (entry_size x)).
Proof.
  intros Hwf Hin.
  destruct (proj1 (files_from_iff root top (entry_path x) (entry_size x) Hwf))
    as [rel [_ [_ Hr]]]; [|assumption].
  now exists x.
Qed.

Lemma files_from_NoDup (root : node) (top : path) :
  well_formed root = true -> NoDup (map entry_path (files_from root top)).
Proof.
  intros Hwf. unfold files_from.
  destruct (resolve root top) as [n|] eqn:E; [|constructor].
  apply files_under_NoDup. now apply (well_formed_resolve root n top).
Qed.

Lemma walk_from_pairs (root : node) (top : path) :
  walk_pairs (walk_from root top) = map entry_key (files_from root top).
Proof.
  unfold walk_from, files_from.
  destruct (resolve root top); [apply walk_pairs_files_under | reflexivity].
Qed.

(* ================================================================= *)
(** ** What one run does *)

Lemma log_nil (w : World) : log w [] = w.
Proof. destruct w as [r t]. unfold log. simpl. now rewrite app_nil_r. Qed.

Lemma log_log (w : World) (a b : list event) :
  log (log w a) b = log w (a ++ b).
Proof. unfold log. simpl. now rewrite app_assoc. Qed.

Lemma fs_log (w : World) (evs : list event) : fs (log w evs) = fs w.
Proof. reflexivity. Qed.

Lemma stdout_log (w : World) (evs : list event) :
  stdout (log w evs) = stdout w ++ flat_map printed evs.
Proof. unfold stdout, log. simpl. apply flat_map_app. Qed.

Lemma for_each_app {A S} (a b : list A) (body : A -> S -> M S) :
  forall acc w,
    for_each (a ++ b) body acc w =
    (acc' <- for_each a body acc ;; for_each b body acc') w.
Proof.
  induction a as [|x a IH]; intros acc w; simpl; [reflexivity|].
  unfold bind. destruct (body x acc w) as [w' [e|acc']];
    [reflexivity|]. apply IH.
Qed.

Lemma for_each_map {A B S} (g : A -> B) (l : list A) (body : B -> S -> M S) :
  forall acc w,
    for_each (map g l) body acc w = for_each l (fun a => body (g a)) acc w.
Proof.
  induction l as [|x l IH]; intros acc w; simpl; [reflexivity|].
  unfold bind. destruct (body (g x) acc w) as [w' [e|acc']];
    [reflexivity|]. apply IH.
Qed.

(** The nested loops are one loop over the [(root, f)] pairs. *)
Lemma loops_flatten (step : path -> string -> Z -> M Z)
  (items : list walk_item) :
  forall acc w,
    for_each items (files_loop step) acc w =
    for_each (walk_pairs items) (fun rf => step (fst rf) (snd rf)) acc w.
Proof.
  induction items as [|[[root dirs] files] items IH]; intros acc w;
    [reflexivity|].
  simpl. rewrite for_each_app. unfold bind.
  rewrite for_each_map. simpl.
  destruct (for_each files _ acc w) as [w' [e|acc']]; [reflexivity|].
  apply IH.
Qed.

Lemma file_step_spec : step_spec file_step plain_events.
Proof.
  intros w [[root f] s] acc Hr. simpl in *.
  unfold file_step, os_path_getsize, os_stat, bind, ret, plain_events.
  unfold os_path_join in *. simpl. now rewrite Hr.
Qed.

Lemma bin_file_step_spec : step_spec bin_file_step bin_events.
Proof.
  intros w [[root f] s] acc Hr. simpl in *.
  unfold bin_file_step, bin_events, is_artifact, entry_name, entry_path,
    entry_size, entry_key, fst, snd.
  unfold os_path_join in *.
  destruct (String.eqb artifact_name f);
    unfold os_path_getsize, os_stat, print, bind, ret; simpl;
    rewrite Hr; simpl; rewrite ?Hr; simpl; rewrite ?log_log; reflexivity.
Qed.

Lemma loop_spec step events_of (Hstep : step_spec step events_of)
  (l : list file_entry) :
  forall w acc,
    (forall x, In x l ->
               resolve (fs w) (entry_path x) = Some (File (entry_size x))) ->
    for_each (map entry_key l) (fun rf => step (fst rf) (snd rf)) acc w =
    (log w (flat_map events_of l), inr (acc + sum_sizes l)).
Proof.
  induction l as [|x l IH]; intros w acc Hall; simpl.
  - unfold ret. now rewrite log_nil, Z.add_0_r.
  - unfold bind. rewrite Hstep by (apply Hall; now left).
    rewrite IH by (intros y Hy; apply Hall; now right).
    now rewrite log_log, Z.add_assoc.
Qed.

Lemma scan_spec step events_of (Hstep : step_spec step events_of)
  (top : path) (w : World) (acc : Z) :
  well_formed (fs w) = true ->
  for_each (walk_from (fs w) top) (files_loop step) acc w =
  (log w (flat_map events_of (files_from (fs w) top)),
   inr (acc + sum_sizes (files_from (fs w) top))).
Proof.
  intros Hwf. rewrite loops_flatten, walk_from_pairs.
  apply loop_spec; [assumption|].
  intros x Hx. now apply (files_from_resolve _ top).
Qed.

(** The whole run, on a well-formed filesystem. *)
Lemma run_spec (env : Env) (w : World) :
  well_formed (fs w) = true ->
  run env w =
  (log w (audit_trace env (fs w)), verdict (grand_total env (fs w))).
Proof.
  intros Hwf. unfold run, bind, os_walk, print.
  change (fs w) with (fs (log w [EWalk (os_path_join (project_path env)
                                          ["dist"; "bin"])])) at 1.
  rewrite (scan_spec _ _ bin_file_step_spec) by assumption.
  simpl fs.
  repeat match goal with
  | |- context [for_each (walk_from (fs w) ?top) _ _ ?w'] =>
      change (fs w) with (fs w') at 1;
      rewrite (scan_spec _ _ file_step_spec top w') by assumption;
      simpl fs
  end.
  rewrite !fs_log, !log_log, !Z.add_0_l.
  unfold verdict, grand_total, subtotal, tracked_files, dist_bin,
    dist_browser, dist_common, dist_native, raise, ret, size_limit_error.
  match goal with
  | |- (if ?c then _ else _) _ = _ => destruct c
  end; f_equal; f_equal;
    unfold audit_trace, folder_trace, grand_total, subtotal, tracked_files,
      dist_bin, dist_browser, dist_common, dist_native;
    cbn [app]; rewrite <- !app_assoc; reflexivity.
Qed.

(** *** The console of a run *)

Lemma flat_map_flat_map {A B C} (f : A -> list B) (g : B -> list C) l :
  flat_map g (flat_map f l) = flat_map (fun a => flat_map g (f a)) l.
Proof.
  induction l as [|a l IH]; simpl; [reflexivity|].
  now rewrite flat_map_app, IH.
Qed.

Lemma printed_plain_events (l : list file_entry) :
  flat_map printed (flat_map plain_events l) = [].
Proof. induction l as [|x l IH]; simpl; [reflexivity | exact IH]. Qed.

Lemma printed_bin_events (l : list file_entry) :
  flat_map printed (flat_map bin_events l) = artifact_reports l.
Proof.
  unfold artifact_reports.
  induction l as [|x l IH]; simpl; [reflexivity|].
  rewrite flat_map_app, IH. unfold bin_events.
  destruct (is_artifact x); reflexivity.
Qed.

Lemma audit_trace_printed (env : Env) (root : node) :
  flat_map printed (audit_trace env root) = audit_stdout env root.
Proof.
  unfold audit_trace, folder_trace, audit_stdout.
  repeat (rewrite ?flat_map_app; cbn [flat_map printed app]).
  rewrite printed_bin_events, !printed_plain_events.
  cbn [app]. rewrite <- ?app_assoc. reflexivity.
Qed.

Lemma run_trace (env : Env) (w : World) :
  well_formed (fs w) = true ->
  trace (fst (run env w)) = trace w ++ audit_trace env (fs w).
Proof. intros Hwf. now rewrite run_spec. Qed.

Lemma run_stdout (env : Env) (w : World) :
  well_formed (fs w) = true ->
  stdout (fst (run env w)) = stdout w ++ audit_stdout env (fs w).
Proof.
  intros Hwf. rewrite run_spec by assumption. cbn [fst].
  now rewrite stdout_log, audit_trace_printed.
Qed.

Lemma run_result (env : Env) (w : World) :
  well_formed (fs w) = true ->
  snd (run env w) = verdict (grand_total env (fs w)).
Proof. intros Hwf. now rewrite run_spec. Qed.

(** *** The tracked files as one list *)

Lemma sum_sizes_app (a b : list file_entry) :
  sum_sizes (a ++ b) = sum_sizes a + sum_sizes b.
Proof.
  unfold sum_sizes. induction a as [|x a IH]; simpl; [reflexivity|].
  rewrite IH. apply Z.add_assoc.
Qed.

Lemma grand_total_all (env : Env) (root : node) :
  sum_sizes (all_tracked_files env root) = grand_total env root.
Proof.
  unfold all_tracked_files, grand_total, subtotal. cbn [flat_map tracked_directories].
  rewrite !sum_sizes_app. cbn [sum_sizes fold_right]. lia.
Qed.

Lemma tracked_files_below (env : Env) (root : node) (d : path) x :
  In x (tracked_files env root d) ->
  exists name rel, entry_path x = project_path env ++ d ++ name :: rel.
Proof.
  unfold tracked_files, files_from, os_path_join. intros Hin.
  destruct (resolve root (project_path env ++ d)) as [n|]; [|contradiction].
  apply files_under_below in Hin as [name [child [rel [Hp _]]]].
  exists name, rel. now rewrite Hp, <- app_assoc.
Qed.

Lemma tracked_files_apart (env : Env) (root : node) (d d' : path) x y :
  List.length d = 2%nat -> List.length d' = 2%nat -> d <> d' ->
  In x (tracked_files env root d) ->
  In y (tracked_files env root d') ->
  entry_path x <> entry_path y.
Proof.
  intros Hd Hd' Hne Hx Hy Heq.
  apply tracked_files_below in Hx as [nx [rx Hx]].
  apply tracked_files_below in Hy as [ny [ry Hy]].
  rewrite Hx, Hy in Heq. apply app_inv_head in Heq.
  destruct d as [|a [|b [|c d]]]; try discriminate.
  destruct d' as [|a' [|b' [|c' d']]]; try discriminate.
  simpl in Heq. inversion Heq; subst. now apply Hne.
Qed.

Lemma all_tracked_files_NoDup (env : Env) (root : node) :
  well_formed root = true ->
  NoDup (map entry_path (all_tracked_files env root)).
Proof.
  intros Hwf. unfold all_tracked_files.
  cbn [flat_map tracked_directories]. rewrite app_nil_r, !map_app.
  assert (Hone : forall d, NoDup (map entry_path (tracked_files env root d)))
    by (intros d; now apply files_from_NoDup).
  assert (Hapart : forall d d' p,
             List.length d = 2%nat -> List.length d' = 2%nat -> d <> d' ->
             In p (map entry_path (tracked_files env root d)) ->
             ~ In p (map entry_path (tracked_files env root d'))).
  { intros d d' p Hd Hd' Hne Hp Hq.
    apply in_map_iff in Hp as [x [<- Hx]].
    apply in_map_iff in Hq as [y [Hxy Hy]].
    now apply (tracked_files_apart env root d d' x y). }
  repeat apply NoDup_app; try apply Hone;
    intros p Hp Hq; rewrite ?in_app_iff in Hq;
    repeat (destruct Hq as [Hq|Hq]);
    match type of Hp with
    | In _ (map _ (tracked_files _ _ ?d)) =>
        match type of Hq with
        | In _ (map _ (tracked_files _ _ ?d')) =>
            apply (Hapart d d' p eq_refl eq_refl); [discriminate|assumption..]
        end
    end.
Qed.

Lemma all_tracked_files_iff (env : Env) (root : node) (p : path) (s : Z) :
  well_formed root = true ->
  (exists x, In x (all_tracked_files env root)
             /\ entry_path x = p /\ entry_size x = s)
  <->
  (exists d rel, In d tracked_directories /\ rel <> [] /\
                 p = project_path env ++ d ++ rel /\
                 resolve root p = Some (File s)).
Proof.
  intros Hwf. unfold all_tracked_files. split.
  - intros [x [Hin Hx]]. apply in_flat_map in Hin as [d [Hd Hin]].
    destruct (proj1 (files_from_iff root (os_path_join (project_path env) d)
                       p s Hwf)) as [rel [Hne [Hp Hr]]];
      [now exists x|].
    exists d, rel. unfold os_path_join in Hp.
    now rewrite <- app_assoc in Hp.
  - intros [d [rel [Hd [Hne [Hp Hr]]]]].
    destruct (proj2 (files_from_iff root (os_path_join (project_path env) d)
                       p s Hwf)) as [x [Hin Hx]].
    + exists rel. unfold os_path_join. now rewrite <- app_assoc.
    + exists x. split; [|assumption]. apply in_flat_map. now exists d.
Qed.

(* ================================================================= *)
(** ** The filesystem is only read *)

Lemma keeps_fs_ret {A} (a : A) : keeps_fs (ret a).
Proof. intros w. reflexivity. Qed.

Lemma keeps_fs_raise {A} (e : exn) : keeps_fs (@raise A e).
Proof. intros w. reflexivity. Qed.

Lemma keeps_fs_bind {A B} (m : M A) (k : A -> M B) :
  keeps_fs m -> (forall a, keeps_fs (k a)) -> keeps_fs (bind m k).
Proof.
  intros Hm Hk w. unfold bind. specialize (Hm w).
  destruct (m w) as [w' [e|a]]; simpl in *; [assumption|].
  now rewrite Hk.
Qed.

Lemma keeps_fs_for_each {A S} (xs : list A) (body : A -> S -> M S) :
  (forall x acc, keeps_fs (body x acc)) ->
  forall acc, keeps_fs (for_each xs body acc).
Proof.
  intros Hbody. induction xs as [|x xs IH]; intros acc; simpl.
  - apply keeps_fs_ret.
  - apply keeps_fs_bind; [apply Hbody | exact IH].
Qed.

Lemma keeps_fs_print (line : string) : keeps_fs (print line).
Proof. intros w. reflexivity. Qed.

Lemma keeps_fs_os_walk (top : path) : keeps_fs (os_walk top).
Proof. intros w. reflexivity. Qed.

Lemma keeps_fs_os_stat (p : path) : keeps_fs (os_stat p).
Proof. intros w. unfold os_stat. now destruct (resolve (fs w) p). Qed.

Lemma keeps_fs_os_path_getsize (p : path) : keeps_fs (os_path_getsize p).
Proof.
  apply keeps_fs_bind; [apply keeps_fs_os_stat | intros; apply keeps_fs_ret].
Qed.

Create HintDb frame.
#[local] Hint Resolve keeps_fs_ret keeps_fs_raise keeps_fs_print
  keeps_fs_os_walk keeps_fs_os_stat keeps_fs_os_path_getsize : frame.

Lemma keeps_fs_file_step root f acc : keeps_fs (file_step root f acc).
Proof.
  unfold file_step. apply keeps_fs_bind; auto with frame.
Qed.

Lemma keeps_fs_bin_file_step root f acc : keeps_fs (bin_file_step root f acc).
Proof.
  unfold bin_file_step. apply keeps_fs_bind.
  - destruct (String.eqb artifact_name f); [|auto with frame].
    apply keeps_fs_bind; auto with frame.
  - intros _. apply keeps_fs_bind; auto with frame.
Qed.

Lemma keeps_fs_files_loop step :
  (forall root f acc, keeps_fs (step root f acc)) ->
  forall it acc, keeps_fs (files_loop step it acc).
Proof.
  intros Hstep [[root dirs] files] acc. simpl.
  apply keeps_fs_for_each. intros f a. apply Hstep.
Qed.

(* ================================================================= *)
(** ** Where the errors come from

    Without any assumption on the filesystem: the loops print at most
    the per-file lines, and the only error they let through is the
    one of [os.stat]. *)












(** *** Missing and empty directories *)

Lemma absent_or_empty_no_files (root : node) (top : path) :
  absent_or_empty root top = true -> files_from root top = [].
Proof.
  unfold absent_or_empty, files_from.
  destruct (resolve root top) as [[s|s [|e l]]|]; (discriminate || reflexivity).
Qed.

Lemma run_stdout_last (env : Env) (w : World) :
  well_formed (fs w) = true ->
  exists before,
    stdout (fst (run env w)) =
    before ++ [total_line (sum_sizes (all_tracked_files env (fs w)))].
Proof.
  intros Hwf. rewrite run_stdout by assumption. unfold audit_stdout.
  rewrite grand_total_all.
  exists (stdout w
            ++ artifact_reports (tracked_files env (fs w) dist_bin)
            ++ [folder_line "dist/bin" (subtotal env (fs w) dist_bin);
                folder_line "dist/browser" (subtotal env (fs w) dist_browser);
                folder_line "dist/common" (subtotal env (fs w) dist_common);
                folder_line "dist/native" (subtotal env (fs w) dist_native)]).
  rewrite <- !app_assoc. reflexivity.
Qed.

(* ================================================================= *)
(** ** The scenarios of the specification *)

Example scenario_run :
  run sample_env (world_of scenario_fs) =
  ({| fs := scenario_fs;
      trace :=
        [EWalk ["proj"; "dist"; "bin"];
         EStat ["proj"; "dist"; "bin"; "cli.js"];
         EStat ["proj"; "dist"; "bin"; "cli.js.map"];
         EPrint "dist/bin files size: 3000 bytes";
         EWalk ["proj"; "dist"; "browser"];
         EStat ["proj"; "dist"; "browser"; "index.js"];
         EPrint "dist/browser files size: 3000 bytes";
         EWalk ["proj"; "dist"; "common"];
         EPrint "dist/common files size: 0 bytes";
         EWalk ["proj"; "dist"; "native"];
         EStat ["proj"; "dist"; "native"; "binding.js"];
         EPrint "dist/native files size: 4000 bytes";
         EPrint "Total NPM package file size: 10000 bytes"] |},
   inr tt).
Proof. vm_compute. reflexivity. Qed.

Example artifact_run_stdout :
  stdout (fst (run sample_env (world_of artifact_fs))) =
  ["/proj/dist/bin/linux-x64/aws-crt-nodejs.node file size: 500";
   "dist/bin files size: 3500 bytes";
   "dist/browser files size: 0 bytes";
   "dist/common files size: 0 bytes";
   "dist/native files size: 4000 bytes";
   "Total NPM package file size: 7500 bytes"].
Proof. vm_compute. reflexivity. Qed.

Example at_limit_run :
  snd (run sample_env (world_of at_limit_fs)) = inr tt.
Proof. vm_compute. reflexivity. Qed.

Example over_limit_run :
  snd (run sample_env (world_of over_limit_fs)) =
  inl (Exception "NPM package exceeds size limit").
Proof. vm_compute. reflexivity. Qed.

(* ================================================================= *)
(** ** Properties of the audit *)

(** C1.  On a well-formed filesystem the grand total the audit reports
    (its last console line) is the sum of the sizes of the regular
    files below the four tracked directories: the list summed over
    names no path twice, and holds a path with a size exactly when the
    path lies strictly below a tracked directory and resolves to a
    regular file of that size. *)
Theorem C1_grand_total_is_exact_sum (env : Env) (w : World) :
  well_formed (fs w) = true ->
  (exists before,
      stdout (fst (run env w)) =
      before ++ [total_line (sum_sizes (all_tracked_files env (fs w)))]) /\
  NoDup (map entry_path (all_tracked_files env (fs w))) /\
  (forall p s,
      (exists x, In x (all_tracked_files env (fs w))
                 /\ entry_path x = p /\ entry_size x = s)
      <->
      (exists d rel, In d tracked_directories /\ rel <> [] /\
                     p = project_path env ++ d ++ rel /\
                     resolve (fs w) p = Some (File s))).
Proof.
  intros Hwf. split; [|split].
  - now apply run_stdout_last.
  - now apply all_tracked_files_NoDup.
  - intros p s. now apply all_tracked_files_iff.
Qed.

Lemma C1_witness :
  well_formed (fs (world_of scenario_fs)) = true /\
  exists before,
    stdout (fst (run sample_env (world_of scenario_fs))) =
    before ++ [total_line 10000].
Proof.
  split; [reflexivity|].
  exact (proj1 (C1_grand_total_is_exact_sum sample_env (world_of scenario_fs)
                  eq_refl)).
Defined.

(** C2.  The threshold is 5,000,000 and the comparison is strict: on a
    well-formed filesystem the audit ends with the size-limit error
    exactly when the total is above the threshold and ends normally
    exactly when it is not; a total equal to the threshold succeeds, a
    total one above it fails. *)
Theorem C2_error_iff_over_threshold (env : Env) (w : World) :
  well_formed (fs w) = true ->
  max_size = 5000000 /\
  (snd (run env w) = inl (Exception "NPM package exceeds size limit")
   <-> sum_sizes (all_tracked_files env (fs w)) > max_size) /\
  (snd (run env w) = inr tt
   <-> sum_sizes (all_tracked_files env (fs w)) <= max_size) /\
  (sum_sizes (all_tracked_files env (fs w)) = max_size ->
   snd (run env w) = inr tt) /\
  (sum_sizes (all_tracked_files env (fs w)) >= max_size + 1 ->
   snd (run env w) = inl (Exception "NPM package exceeds size limit")).
Proof.
  intros Hwf. rewrite run_result by assumption.
  rewrite <- grand_total_all. unfold verdict, size_limit_error.
  destruct (Z.gtb_spec (sum_sizes (all_tracked_files env (fs w))) max_size)
    as [Hgt|Hle].
  - split; [reflexivity|]. split; [|split; [|split]].
    + split; [lia | reflexivity].
    + split; [discriminate | lia].
    + lia.
    + reflexivity.
  - split; [reflexivity|]. split; [|split; [|split]].
    + split; [discriminate | lia].
    + split; [lia | reflexivity].
    + reflexivity.
    + lia.
Qed.

Lemma C2_witness :
  well_formed (fs (world_of at_limit_fs)) = true /\
  well_formed (fs (world_of over_limit_fs)) = true /\
  snd (run sample_env (world_of at_limit_fs)) = inr tt /\
  snd (run sample_env (world_of over_limit_fs)) =
  inl (Exception "NPM package exceeds size limit").
Proof.
  split; [reflexivity|]. split; [reflexivity|]. split.
  - apply (C2_error_iff_over_threshold sample_env (world_of at_limit_fs)
             eq_refl).
    reflexivity.
  - apply (C2_error_iff_over_threshold sample_env (world_of over_limit_fs)
             eq_refl).
    vm_compute. discriminate.
Defined.

(** C3.  On a well-formed filesystem no run stops on a filesystem
    error and the console shows the four subtotals; a tracked directory
    that is missing has subtotal 0; when each of the four is missing or
    empty, the four subtotal lines and the total line all show 0 and
    the audit ends normally. *)
Theorem C3_missing_directories_count_zero (env : Env) (w : World) :
  well_formed (fs w) = true ->
  (forall p, snd (run env w) <> inl (OSError p)) /\
  stdout (fst (run env w)) =
  stdout w
    ++ artifact_reports (tracked_files env (fs w) dist_bin)
    ++ [folder_line "dist/bin" (subtotal env (fs w) dist_bin);
        folder_line "dist/browser" (subtotal env (fs w) dist_browser);
        folder_line "dist/common" (subtotal env (fs w) dist_common);
        folder_line "dist/native" (subtotal env (fs w) dist_native);
        total_line (subtotal env (fs w) dist_bin
                    + subtotal env (fs w) dist_browser
                    + subtotal env (fs w) dist_common
                    + subtotal env (fs w) dist_native)] /\
  (forall d, In d tracked_directories ->
             resolve (fs w) (os_path_join (project_path env) d) = None ->
             tracked_files env (fs w) d = [] /\ subtotal env (fs w) d = 0) /\
  ((forall d, In d tracked_directories ->
              absent_or_empty (fs w) (os_path_join (project_path env) d)
              = true) ->
   stdout (fst (run env w)) =
   stdout w ++ [folder_line "dist/bin" 0; folder_line "dist/browser" 0;
                folder_line "dist/common" 0; folder_line "dist/native" 0;
                total_line 0] /\
   snd (run env w) = inr tt).
Proof.
  intros Hwf. rewrite run_stdout, run_result by assumption.
  split; [|split; [|split]].
  - intros p. unfold verdict. now destruct (_ >? _).
  - reflexivity.
  - intros d _ Hd. unfold subtotal, tracked_files, files_from.
    now rewrite Hd.
  - intros Hall.
    assert (Hnone : forall d, In d tracked_directories ->
                              tracked_files env (fs w) d = []).
    { intros d Hd. now apply absent_or_empty_no_files, Hall. }
    unfold audit_stdout, grand_total, subtotal.
    rewrite !Hnone by (simpl; tauto). split; reflexivity.
Qed.

Lemma C3_witness :
  well_formed (fs (world_of bare_fs)) = true /\
  stdout (fst (run sample_env (world_of bare_fs))) =
  [folder_line "dist/bin" 0; folder_line "dist/browser" 0;
   folder_line "dist/common" 0; folder_line "dist/native" 0;
   total_line 0] /\
  snd (run sample_env (world_of bare_fs)) = inr tt.
Proof.
  split; [reflexivity|].
  apply (C3_missing_directories_count_zero sample_env (world_of bare_fs)
           eq_refl).
  intros d Hd. simpl in Hd.
  destruct Hd as [<-|[<-|[<-|[<-|[]]]]]; reflexivity.
Defined.

(** C4, as amended.  When the total is above the threshold the audit
    ends with an error that carries the fixed message
    "NPM package exceeds size limit" and nothing else; the observed
    total is the last line printed before the error is raised. *)
Theorem C4_error_carries_fixed_message (env : Env) (w : World) :
  well_formed (fs w) = true ->
  sum_sizes (all_tracked_files env (fs w)) > max_size ->
  snd (run env w) = inl (Exception "NPM package exceeds size limit") /\
  exists before,
    stdout (fst (run env w)) =
    before ++ [total_line (sum_sizes (all_tracked_files env (fs w)))].
Proof.
  intros Hwf Hgt. split; [|now apply run_stdout_last].
  rewrite run_result by assumption. rewrite <- grand_total_all.
  unfold verdict, size_limit_error.
  destruct (Z.gtb_spec (sum_sizes (all_tracked_files env (fs w))) max_size);
    [reflexivity | lia].
Qed.

Lemma C4_witness :
  well_formed (fs (world_of over_limit_fs)) = true /\
  sum_sizes (all_tracked_files sample_env (fs (world_of over_limit_fs)))
  > max_size /\
  snd (run sample_env (world_of over_limit_fs)) =
  inl (Exception "NPM package exceeds size limit").
Proof.
  split; [reflexivity|]. split; [reflexivity|].
  exact (proj1 (C4_error_carries_fixed_message sample_env
                  (world_of over_limit_fs) eq_refl eq_refl)).
Defined.

(** C4, as stated, fails: the error carries neither the observed total
    nor the threshold.  Totals of 5,000,001 and of 6,000,000 end in the
    very same error, so nothing read off the error can be the observed
    total. *)
Lemma C4_counterexample :
  ~ (exists carried : exn -> Z * Z,
        forall env w,
          well_formed (fs w) = true ->
          sum_sizes (all_tracked_files env (fs w)) > max_size ->
          exists e, snd (run env w) = inl e /\
                    carried e =
                    (sum_sizes (all_tracked_files env (fs w)), max_size)).
Proof.
  intros [carried H].
  destruct (H sample_env (world_of over_limit_fs) eq_refl eq_refl)
    as [e1 [He1 Hc1]].
  destruct (H sample_env (world_of far_over_limit_fs) eq_refl eq_refl)
    as [e2 [He2 Hc2]].
  vm_compute in He1, He2. inversion He1; subst e1. inversion He2; subst e2.
  rewrite Hc1 in Hc2. vm_compute in Hc2. discriminate.
Qed.

(** C5.  On a well-formed filesystem the console ends with the four
    subtotal lines and the total line, and the total shown is the sum
    of the four subtotals shown; that sum is the sum over all tracked
    files, none of which is listed twice. *)
Theorem C5_subtotals_sum_to_total (env : Env) (w : World) :
  well_formed (fs w) = true ->
  (exists reports,
      stdout (fst (run env w)) =
      stdout w ++ reports
        ++ [folder_line "dist/bin" (subtotal env (fs w) dist_bin);
            folder_line "dist/browser" (subtotal env (fs w) dist_browser);
            folder_line "dist/common" (subtotal env (fs w) dist_common);
            folder_line "dist/native" (subtotal env (fs w) dist_native);
            total_line (subtotal env (fs w) dist_bin
                        + subtotal env (fs w) dist_browser
                        + subtotal env (fs w) dist_common
                        + subtotal env (fs w) dist_native)]) /\
  (forall d, subtotal env (fs w) d = sum_sizes (tracked_files env (fs w) d)) /\
  subtotal env (fs w) dist_bin + subtotal env (fs w) dist_browser
  + subtotal env (fs w) dist_common + subtotal env (fs w) dist_native
  = sum_sizes (all_tracked_files env (fs w)) /\
  NoDup (map entry_path (all_tracked_files env (fs w))).
Proof.
  intros Hwf. split; [|split; [|split]].
  - exists (artifact_reports (tracked_files env (fs w) dist_bin)).
    now apply run_stdout.
  - reflexivity.
  - symmetry. apply grand_total_all.
  - now apply all_tracked_files_NoDup.
Qed.

Lemma C5_witness :
  well_formed (fs (world_of scenario_fs)) = true /\
  exists reports,
    stdout (fst (run sample_env (world_of scenario_fs))) =
    reports ++ [folder_line "dist/bin" 3000;
                folder_line "dist/browser" 3000;
                folder_line "dist/common" 0;
                folder_line "dist/native" 4000;
                total_line (3000 + 3000 + 0 + 4000)].
Proof.
  split; [reflexivity|].
  exact (proj1 (C5_subtotals_sum_to_total sample_env (world_of scenario_fs)
                  eq_refl)).
Defined.

(** C6.  On a well-formed filesystem the per-file lines on the console
    are those of the files below dist/bin named aws-crt-nodejs.node,
    one line each, in walk order and ahead of the dist/bin subtotal
    line; each such file is a term of the dist/bin subtotal, which is a
    term of the total; nothing below the other three directories adds a
    per-file line. *)
Theorem C6_artifact_report (env : Env) (w : World) :
  well_formed (fs w) = true ->
  stdout (fst (run env w)) =
  stdout w
    ++ map (fun x => file_size_line (entry_path x) (entry_size x))
         (filter (fun x => String.eqb "aws-crt-nodejs.node" (entry_name x))
            (tracked_files env (fs w) dist_bin))
    ++ [folder_line "dist/bin" (sum_sizes (tracked_files env (fs w) dist_bin));
        folder_line "dist/browser"
          (sum_sizes (tracked_files env (fs w) dist_browser));
        folder_line "dist/common"
          (sum_sizes (tracked_files env (fs w) dist_common));
        folder_line "dist/native"
          (sum_sizes (tracked_files env (fs w) dist_native));
        total_line (sum_sizes (tracked_files env (fs w) dist_bin)
                    + sum_sizes (tracked_files env (fs w) dist_browser)
                    + sum_sizes (tracked_files env (fs w) dist_common)
                    + sum_sizes (tracked_files env (fs w) dist_native))] /\
  (forall x,
      In x (tracked_files env (fs w) dist_bin) ->
      entry_name x = "aws-crt-nodejs.node" ->
      In (file_size_line (entry_path x) (entry_size x))
        (artifact_reports (tracked_files env (fs w) dist_bin)) /\
      exists l1 l2,
        tracked_files env (fs w) dist_bin = l1 ++ x :: l2 /\
        sum_sizes (tracked_files env (fs w) dist_bin)
        = sum_sizes l1 + entry_size x + sum_sizes l2).
Proof.
  intros Hwf. split; [now apply run_stdout|].
  intros x Hin Hname. split.
  - unfold artifact_reports.
    apply (in_map (fun x => file_size_line (entry_path x) (entry_size x))).
    apply filter_In. split; [assumption|].
    unfold is_artifact. rewrite Hname. apply String.eqb_refl.
  - apply in_split in Hin as [l1 [l2 Heq]]. exists l1, l2.
    split; [assumption|]. rewrite Heq, sum_sizes_app. simpl. lia.
Qed.

Lemma C6_witness :
  well_formed (fs (world_of artifact_fs)) = true /\
  stdout (fst (run sample_env (world_of artifact_fs))) =
  ["/proj/dist/bin/linux-x64/aws-crt-nodejs.node file size: 500";
   folder_line "dist/bin" 3500;
   folder_line "dist/browser" 0;
   folder_line "dist/common" 0;
   folder_line "dist/native" 4000;
   total_line 7500].
Proof.
  split; [reflexivity|].
  exact (proj1 (C6_artifact_report sample_env (world_of artifact_fs) eq_refl)).
Defined.

(** C7.  On a well-formed filesystem the run does, in this order: the
    walk of dist/bin, the size reads of its files and its subtotal
    line; the same for dist/browser, for dist/common and for
    dist/native; then the total line.  The reads between a walk and
    the next subtotal line are of files below the directory walked.
    The run ends as the comparison of the sum of the four subtotals
    with the threshold decides, with all of the above already done. *)
Theorem C7_fixed_directory_order (env : Env) (w : World) :
  well_formed (fs w) = true ->
  trace (fst (run env w)) =
  trace w
    ++ (EWalk (os_path_join (project_path env) ["dist"; "bin"])
          :: flat_map bin_events (tracked_files env (fs w) dist_bin)
          ++ [EPrint (folder_line "dist/bin" (subtotal env (fs w) dist_bin))])
    ++ (EWalk (os_path_join (project_path env) ["dist"; "browser"])
          :: flat_map plain_events (tracked_files env (fs w) dist_browser)
          ++ [EPrint (folder_line "dist/browser"
                        (subtotal env (fs w) dist_browser))])
    ++ (EWalk (os_path_join (project_path env) ["dist"; "common"])
          :: flat_map plain_events (tracked_files env (fs w) dist_common)
          ++ [EPrint (folder_line "dist/common"
                        (subtotal env (fs w) dist_common))])
    ++ (EWalk (os_path_join (project_path env) ["dist"; "native"])
          :: flat_map plain_events (tracked_files env (fs w) dist_native)
          ++ [EPrint (folder_line "dist/native"
                        (subtotal env (fs w) dist_native))])
    ++ [EPrint (total_line (subtotal env (fs w) dist_bin
                            + subtotal env (fs w) dist_browser
                            + subtotal env (fs w) dist_common
                            + subtotal env (fs w) dist_native))] /\
  (forall d x, In x (tracked_files env (fs w) d) ->
               exists name rel,
                 entry_path x = project_path env ++ d ++ name :: rel) /\
  snd (run env w) =
  (if subtotal env (fs w) dist_bin + subtotal env (fs w) dist_browser
      + subtotal env (fs w) dist_common + subtotal env (fs w) dist_native
      >? max_size
   then inl (Exception "NPM package exceeds size limit")
   else inr tt).
Proof.
  intros Hwf. split; [|split].
  - now apply run_trace.
  - intros d x. apply tracked_files_below.
  - now apply run_result.
Qed.

Lemma C7_witness :
  well_formed (fs (world_of scenario_fs)) = true /\
  trace (fst (run sample_env (world_of scenario_fs))) =
  [EWalk ["proj"; "dist"; "bin"];
   EStat ["proj"; "dist"; "bin"; "cli.js"];
   EStat ["proj"; "dist"; "bin"; "cli.js.map"];
   EPrint (folder_line "dist/bin" 3000);
   EWalk ["proj"; "dist"; "browser"];
   EStat ["proj"; "dist"; "browser"; "index.js"];
   EPrint (folder_line "dist/browser" 3000);
   EWalk ["proj"; "dist"; "common"];
   EPrint (folder_line "dist/common" 0);
   EWalk ["proj"; "dist"; "native"];
   EStat ["proj"; "dist"; "native"; "binding.js"];
   EPrint (folder_line "dist/native" 4000);
   EPrint (total_line 10000)].
Proof.
  split; [reflexivity|].
  exact (proj1 (C7_fixed_directory_order sample_env (world_of scenario_fs)
                  eq_refl)).
Defined.

(** C8.  Whatever the filesystem and however the run ends, the
    filesystem after the run is the filesystem before it. *)
Theorem C8_filesystem_unchanged (env : Env) (w : World) :
  fs (fst (run env w)) = fs w.
Proof.
  revert w. change (keeps_fs (run env)). unfold run.
  repeat (apply keeps_fs_bind; [|intros ?]);
    try apply keeps_fs_for_each;
    try (apply keeps_fs_files_loop;
         first [apply keeps_fs_bin_file_step | apply keeps_fs_file_step]);
    auto with frame.
  destruct (_ >? _); auto with frame.
Qed.




(** C10.  [os.path.getsize] gives what [os.stat(...).st_size] gives, on
    every path and in every world.  For a file named
    aws-crt-nodejs.node the body of the dist/bin loop prints and adds
    one and the same size; when the path does not resolve, it stops on
    the error of the first [os.stat] with nothing printed or added. *)
Theorem C10_report_size_is_counted_size
  (w : World) (root : path) (folder_size : Z) :
  (forall p,
      os_path_getsize p w =
      match os_stat p w with
      | (w', inr st) => (w', inr (st_size st))
      | (w', inl e) => (w', inl e)
      end) /\
  match resolve (fs w) (os_path_join root ["aws-crt-nodejs.node"]) with
  | Some n =>
      bin_file_step root "aws-crt-nodejs.node" folder_size w =
      (log w [EStat (os_path_join root ["aws-crt-nodejs.node"]);
              EPrint (file_size_line
                        (os_path_join root ["aws-crt-nodejs.node"])
                        (node_size n));
              EStat (os_path_join root ["aws-crt-nodejs.node"])],
       inr (folder_size + node_size n))
  | None =>
      bin_file_step root "aws-crt-nodejs.node" folder_size w =
      (log w [EStat (os_path_join root ["aws-crt-nodejs.node"])],
       inl (OSError (os_path_join root ["aws-crt-nodejs.node"])))
  end.
Proof.
  split.
  - intros p. unfold os_path_getsize, bind, ret.
    now destruct (os_stat p w) as [w' [e|st]].
  - unfold bin_file_step.
    change (String.eqb artifact_name "aws-crt-nodejs.node") with true.
    cbv iota. unfold os_path_getsize, os_stat, print, bind, ret.
    destruct (resolve (fs w) (os_path_join root ["aws-crt-nodejs.node"]))
      as [n|] eqn:E; [|reflexivity].
    cbn [fs log st_size]. rewrite E. cbn [st_size].
    rewrite !log_log. reflexivity.
Qed.


(* ================================================================= *)
(** ** What the outcome depends on *)

Lemma listing_paths (root : node) (top : path) :
  map fst (listing root top) = map entry_path (files_from root top).
Proof. unfold listing. rewrite map_map. reflexivity. Qed.

Lemma listing_NoDup (root : node) (top : path) :
  well_formed root = true -> NoDup (listing root top).
Proof.
  intros Hwf. apply (NoDup_map_inv fst). rewrite listing_paths.
  now apply files_from_NoDup.
Qed.

Lemma listing_iff (root : node) (top : path) (p : path) (s : Z) :
  well_formed root = true ->
  In (p, s) (listing root top) <->
  exists rel, rel <> [] /\ p = top ++ rel /\ resolve root p = Some (File s).
Proof.
  intros Hwf. rewrite <- (files_from_iff root top p s Hwf).
  unfold listing. rewrite in_map_iff. split.
  - intros [x [Hx Hin]]. inversion Hx; subst. now exists x.
  - intros [x [Hin [<- <-]]]. now exists x.
Qed.

Lemma listing_same (r1 r2 : node) (top : path) :
  well_formed r1 = true -> well_formed r2 = true ->
  (same_regular_files r1 r2 top <->
   forall ps, In ps (listing r1 top) <-> In ps (listing r2 top)).
Proof.
  intros H1 H2. split.
  - intros Hsame [p s]. rewrite !listing_iff by assumption.
    split; intros [rel [Hne [-> Hr]]]; exists rel;
      (repeat split; [assumption|]); now apply (Hsame rel s Hne).
  - intros Hin rel s Hne.
    assert (Hl : forall r, well_formed r = true ->
                 (In (top ++ rel, s) (listing r top)
                  <-> resolve r (top ++ rel) = Some (File s))).
    { intros r Hr. rewrite listing_iff by assumption. split.
      - now intros [rel' [_ [_ H]]].
      - intros H. now exists rel. }
    rewrite <- (Hl r1 H1), <- (Hl r2 H2). apply Hin.
Qed.

Lemma listing_Permutation (r1 r2 : node) (top : path) :
  well_formed r1 = true -> well_formed r2 = true ->
  same_regular_files r1 r2 top ->
  Permutation (listing r1 top) (listing r2 top).
Proof.
  intros H1 H2 Hsame.
  apply NoDup_Permutation; try now apply listing_NoDup.
  now apply listing_same.
Qed.

Lemma sum_sizes_listing (l : list file_entry) :
  sum_sizes l = fold_right Z.add 0 (map snd (map entry_listing l)).
Proof.
  unfold sum_sizes. induction l as [|x l IH]; simpl; [reflexivity|].
  now rewrite IH.
Qed.

Lemma sum_Permutation (l l' : list Z) :
  Permutation l l' -> fold_right Z.add 0 l = fold_right Z.add 0 l'.
Proof.
  induction 1 as [|x l l' _ IH|x y l|l l' l'' _ IH1 _ IH2]; simpl.
  - reflexivity.
  - now rewrite IH.
  - lia.
  - now rewrite IH1.
Qed.

Lemma filter_Permutation {A} (f : A -> bool) (l l' : list A) :
  Permutation l l' -> Permutation (filter f l) (filter f l').
Proof.
  induction 1 as [|x l l' _ IH|x y l|l l' l'' _ IH1 _ IH2]; simpl.
  - constructor.
  - destruct (f x); [now constructor | assumption].
  - destruct (f x), (f y); try apply Permutation_refl. constructor.
  - now transitivity (filter f l').
Qed.

Lemma artifact_reports_listing (l : list file_entry) :
  artifact_reports l =
  map listing_line (filter listing_is_artifact (map entry_listing l)).
Proof.
  unfold artifact_reports.
  induction l as [|[[root f] s] l IH]; [reflexivity|].
  cbn [map filter].
  assert (Hx : listing_is_artifact (entry_listing (root, f, s))
               = is_artifact (root, f, s)).
  { unfold listing_is_artifact, is_artifact, entry_listing, entry_path,
      entry_name, os_path_join. cbn [fst]. now rewrite last_last. }
  rewrite Hx. destruct (is_artifact (root, f, s)); cbn [map];
    now rewrite IH.
Qed.

Lemma subtotal_same (env : Env) (r1 r2 : node) (d : path) :
  well_formed r1 = true -> well_formed r2 = true ->
  same_regular_files r1 r2 (os_path_join (project_path env) d) ->
  subtotal env r1 d = subtotal env r2 d.
Proof.
  intros H1 H2 Hsame. unfold subtotal, tracked_files.
  rewrite !sum_sizes_listing. apply sum_Permutation, Permutation_map.
  now apply listing_Permutation.
Qed.

(** X1.  Two well-formed filesystems that hold the same regular files,
    with the same sizes, strictly below each of the four tracked
    directories give the same subtotals, the same five closing lines
    and the same result; the per-file lines are the same up to their
    order.  The order of the listings, the sizes [stat] gives for
    directories and whatever lies outside the tracked directories do
    not enter the accounting. *)
Theorem X1_outcome_is_extensional (env : Env) (w1 w2 : World) :
  well_formed (fs w1) = true ->
  well_formed (fs w2) = true ->
  (forall d, In d tracked_directories ->
             same_regular_files (fs w1) (fs w2)
               (os_path_join (project_path env) d)) ->
  (forall d, In d tracked_directories ->
             subtotal env (fs w1) d = subtotal env (fs w2) d) /\
  snd (run env w1) = snd (run env w2) /\
  exists reports1 reports2 closing,
    stdout (fst (run env w1)) = stdout w1 ++ reports1 ++ closing /\
    stdout (fst (run env w2)) = stdout w2 ++ reports2 ++ closing /\
    Permutation reports1 reports2 /\
    List.length closing = 5%nat.
Proof.
  intros H1 H2 Hsame.
  assert (Hsub : forall d, In d tracked_directories ->
                           subtotal env (fs w1) d = subtotal env (fs w2) d).
  { intros d Hd. apply subtotal_same; auto. }
  assert (Htot : grand_total env (fs w1) = grand_total env (fs w2)).
  { unfold grand_total. rewrite !Hsub by (simpl; tauto). reflexivity. }
  split; [exact Hsub|]. split.
  - rewrite !run_result by assumption. now rewrite Htot.
  - exists (artifact_reports (tracked_files env (fs w1) dist_bin)),
      (artifact_reports (tracked_files env (fs w2) dist_bin)),
      [folder_line "dist/bin" (subtotal env (fs w2) dist_bin);
       folder_line "dist/browser" (subtotal env (fs w2) dist_browser);
       folder_line "dist/common" (subtotal env (fs w2) dist_common);
       folder_line "dist/native" (subtotal env (fs w2) dist_native);
       total_line (grand_total env (fs w2))].
    rewrite !run_stdout by assumption. unfold audit_stdout.
    rewrite Htot, !Hsub by (simpl; tauto).
    repeat split.
    rewrite !artifact_reports_listing.
    apply Permutation_map, filter_Permutation.
    apply (listing_Permutation (fs w1) (fs w2)
             (os_path_join (project_path env) dist_bin) H1 H2).
    apply Hsame. simpl. tauto.
Qed.

Lemma X1_witness :
  well_formed (fs (world_of scenario_fs)) = true /\
  well_formed (fs (world_of shuffled_fs)) = true /\
  snd (run sample_env (world_of scenario_fs)) =
  snd (run sample_env (world_of shuffled_fs)).
Proof.
  split; [reflexivity|]. split; [reflexivity|].
  apply (X1_outcome_is_extensional sample_env (world_of scenario_fs)
           (world_of shuffled_fs) eq_refl eq_refl).
  intros d Hd.
  apply (proj2 (listing_same scenario_fs shuffled_fs _ eq_refl eq_refl)).
  simpl in Hd. destruct Hd as [<-|[<-|[<-|[<-|[]]]]]; intros ps;
    vm_compute; tauto.
Defined.

(** *** Sizes that are not negative *)

Lemma sum_sizes_nonneg (l : list file_entry) :
  Forall (fun x => 0 <= entry_size x) l -> 0 <= sum_sizes l.
Proof.
  unfold sum_sizes. induction 1 as [|x l Hx _ IH]; simpl; lia.
Qed.

Lemma sum_sizes_bounds_entry (l : list file_entry) (x : file_entry) :
  Forall (fun x => 0 <= entry_size x) l -> In x l ->
  entry_size x <= sum_sizes l.
Proof.
  intros Hall. induction Hall as [|y l Hy Hl IH]; intros Hin;
    [contradiction|].
  pose proof (sum_sizes_nonneg l Hl) as Hpos.
  change (sum_sizes (y :: l)) with (entry_size y + sum_sizes l).
  destruct Hin as [->|Hin]; [lia|]. specialize (IH Hin). lia.
Qed.

(** X2.  When no tracked file has a negative size, every subtotal lies
    between 0 and the total: one directory above the threshold is
    enough for the audit to fail, and an audit that succeeds has seen
    no tracked file larger than the threshold. *)
Theorem X2_one_directory_can_fail_the_audit (env : Env) (w : World) :
  well_formed (fs w) = true ->
  Forall (fun x => 0 <= entry_size x) (all_tracked_files env (fs w)) ->
  (forall d, In d tracked_directories ->
             0 <= subtotal env (fs w) d
             <= sum_sizes (all_tracked_files env (fs w))) /\
  (forall d, In d tracked_directories ->
             subtotal env (fs w) d > max_size ->
             snd (run env w) =
             inl (Exception "NPM package exceeds size limit")) /\
  (snd (run env w) = inr tt ->
   forall x, In x (all_tracked_files env (fs w)) ->
             entry_size x <= max_size).
Proof.
  intros Hwf Hall.
  assert (Hres := run_result env w Hwf).
  rewrite <- grand_total_all in Hres. unfold verdict, size_limit_error in Hres.
  assert (Hsub : forall d, In d tracked_directories ->
                           0 <= subtotal env (fs w) d
                           <= sum_sizes (all_tracked_files env (fs w))).
  { unfold all_tracked_files in Hall. cbn [flat_map tracked_directories] in Hall.
    rewrite !Forall_app in Hall.
    destruct Hall as [Hb [Hr [Hc [Hn _]]]].
    apply sum_sizes_nonneg in Hb, Hr, Hc, Hn.
    rewrite grand_total_all. unfold grand_total, subtotal in *.
    intros d Hd. simpl in Hd.
    destruct Hd as [<-|[<-|[<-|[<-|[]]]]]; lia. }
  split; [exact Hsub|]. split.
  - intros d Hd Hgt. rewrite Hres. specialize (Hsub d Hd).
    destruct (Z.gtb_spec (sum_sizes (all_tracked_files env (fs w))) max_size);
      [reflexivity | lia].
  - intros Hok x Hx. rewrite Hres in Hok.
    pose proof (sum_sizes_bounds_entry _ x Hall Hx) as Hle.
    destruct (Z.gtb_spec (sum_sizes (all_tracked_files env (fs w))) max_size);
      [discriminate | lia].
Qed.

Lemma X2_witness :
  well_formed (fs (world_of over_limit_fs)) = true /\
  Forall (fun x => 0 <= entry_size x)
    (all_tracked_files sample_env (fs (world_of over_limit_fs))) /\
  snd (run sample_env (world_of over_limit_fs)) =
  inl (Exception "NPM package exceeds size limit").
Proof.
  assert (Hall : Forall (fun x => 0 <= entry_size x)
                   (all_tracked_files sample_env
                      (fs (world_of over_limit_fs)))).
  { repeat constructor. vm_compute. discriminate. }
  split; [reflexivity|]. split; [exact Hall|].
  apply (proj1 (proj2 (X2_one_directory_can_fail_the_audit sample_env
                         (world_of over_limit_fs) eq_refl Hall))
           dist_native).
  - simpl. tauto.
  - reflexivity.
Defined.

(** *** How often the filesystem and the console are used *)

Lemma count_events_app (f : event -> bool) (a b : list event) :
  count_events f (a ++ b) = (count_events f a + count_events f b)%nat.
Proof. unfold count_events. now rewrite filter_app, length_app. Qed.

Lemma count_stat_plain_events (l : list file_entry) :
  count_events is_stat (flat_map plain_events l) = List.length l.
Proof.
  induction l as [|x l IH]; [reflexivity|].
  cbn [flat_map]. rewrite count_events_app, IH. reflexivity.
Qed.

Lemma count_stat_bin_events (l : list file_entry) :
  count_events is_stat (flat_map bin_events l)
  = (List.length l + List.length (filter is_artifact l))%nat.
Proof.
  induction l as [|x l IH]; [reflexivity|].
  cbn [flat_map filter]. rewrite count_events_app, IH. unfold bin_events.
  destruct (is_artifact x); cbn [count_events filter is_stat List.length]; lia.
Qed.

Lemma count_walk_events (events_of : file_entry -> list event)
  (l : list file_entry) :
  (forall x, count_events is_walk (events_of x) = 0%nat) ->
  count_events is_walk (flat_map events_of l) = 0%nat.
Proof.
  intros H. induction l as [|x l IH]; [reflexivity|].
  cbn [flat_map]. now rewrite count_events_app, H, IH.
Qed.

Lemma count_walk_plain_events (l : list file_entry) :
  count_events is_walk (flat_map plain_events l) = 0%nat.
Proof. apply count_walk_events. reflexivity. Qed.

Lemma count_walk_bin_events (l : list file_entry) :
  count_events is_walk (flat_map bin_events l) = 0%nat.
Proof.
  apply count_walk_events. intros x. unfold bin_events.
  now destruct (is_artifact x).
Qed.

(** X4.  On a well-formed filesystem a run starts four walks, hands
    each tracked file to [os.stat] once and each file below dist/bin
    named aws-crt-nodejs.node once more, and prints five lines plus one
    per such file. *)
Theorem X4_reads_and_lines_of_a_run (env : Env) (w : World) :
  well_formed (fs w) = true ->
  exists evs,
    trace (fst (run env w)) = trace w ++ evs /\
    count_events is_walk evs = 4%nat /\
    count_events is_stat evs
    = (List.length (all_tracked_files env (fs w))
       + List.length (filter is_artifact (tracked_files env (fs w) dist_bin)))%nat /\
    List.length (flat_map printed evs)
    = (5 + List.length (filter is_artifact
                          (tracked_files env (fs w) dist_bin)))%nat.
Proof.
  intros Hwf. exists (audit_trace env (fs w)).
  split; [now apply run_trace|]. split; [|split].
  - unfold audit_trace, folder_trace.
    repeat (rewrite ?count_events_app;
            match goal with
            | |- context [count_events is_walk (EWalk ?p :: ?l)] =>
                change (count_events is_walk (EWalk p :: l))
                  with (S (count_events is_walk l))
            end).
    rewrite !count_events_app, count_walk_bin_events,
      !count_walk_plain_events.
    reflexivity.
  - unfold audit_trace, folder_trace, all_tracked_files.
    cbn [flat_map tracked_directories].
    repeat (rewrite ?count_events_app;
            match goal with
            | |- context [count_events is_stat (EWalk ?p :: ?l)] =>
                change (count_events is_stat (EWalk p :: l))
                  with (count_events is_stat l)
            end).
    rewrite !count_events_app, count_stat_bin_events,
      !count_stat_plain_events, !length_app.
    cbn [count_events filter is_stat List.length]. lia.
  - rewrite audit_trace_printed. unfold audit_stdout, artifact_reports.
    rewrite length_app, length_map. cbn [List.length]. lia.
Qed.

Lemma X4_witness :
  well_formed (fs (world_of artifact_fs)) = true /\
  exists evs,
    trace (fst (run sample_env (world_of artifact_fs)))
    = trace (world_of artifact_fs) ++ evs /\
    count_events is_walk evs = 4%nat /\
    count_events is_stat evs = (4 + 1)%nat /\
    List.length (flat_map printed evs) = (5 + 1)%nat.
Proof.
  split; [reflexivity|].
  exact (X4_reads_and_lines_of_a_run sample_env (world_of artifact_fs)
           eq_refl).
Defined.

(** *** Directories without regular files *)

Lemma no_regular_files_iff (root : node) (top : path) :
  well_formed root = true ->
  (no_regular_files root top <-> files_from root top = []).
Proof.
  intros Hwf. split.
  - intros Hnone. destruct (files_from root top) as [|x l] eqn:E;
      [reflexivity|].
    destruct (proj1 (files_from_iff root top (entry_path x) (entry_size x)
                       Hwf)) as [rel [Hne [Hp Hr]]].
    + exists x. rewrite E. repeat split. now left.
    + exfalso. rewrite Hp in Hr. exact (Hnone rel _ Hne Hr).
  - intros Hnil rel s Hne Hr.
    destruct (proj2 (files_from_iff root top (top ++ rel) s Hwf))
      as [x [Hin _]]; [now exists rel|].
    rewrite Hnil in Hin. contradiction.
Qed.

(** X5.  On a well-formed filesystem, when no regular file lies
    strictly below any of the four tracked paths (the path is missing,
    is itself a regular file of whatever size, or is a directory that
    holds directories only), the audit prints five lines of 0 and
    succeeds. *)
Theorem X5_nothing_to_count (env : Env) (w : World) :
  well_formed (fs w) = true ->
  (forall d, In d tracked_directories ->
             no_regular_files (fs w) (os_path_join (project_path env) d)) ->
  stdout (fst (run env w)) =
  stdout w ++ [folder_line "dist/bin" 0; folder_line "dist/browser" 0;
               folder_line "dist/common" 0; folder_line "dist/native" 0;
               total_line 0] /\
  snd (run env w) = inr tt.
Proof.
  intros Hwf Hnone.
  assert (Hnil : forall d, In d tracked_directories ->
                           tracked_files env (fs w) d = []).
  { intros d Hd. unfold tracked_files.
    now apply no_regular_files_iff, Hnone. }
  rewrite run_stdout, run_result by assumption.
  unfold audit_stdout, grand_total, subtotal.
  rewrite !Hnil by (simpl; tauto). split; reflexivity.
Qed.

Lemma X5_witness :
  well_formed (fs (world_of hollow_fs)) = true /\
  resolve hollow_fs ["proj"; "dist"; "bin"] = Some (File 9000000) /\
  snd (run sample_env (world_of hollow_fs)) = inr tt.
Proof.
  split; [reflexivity|]. split; [reflexivity|].
  apply (X5_nothing_to_count sample_env (world_of hollow_fs) eq_refl).
  intros d Hd. apply (no_regular_files_iff hollow_fs _ eq_refl).
  simpl in Hd. destruct Hd as [<-|[<-|[<-|[<-|[]]]]]; reflexivity.
Defined.

(** *** Reading the console *)

Lemma to_int_proper (z : Z) :
  Z.to_int z <> Decimal.Pos Decimal.Nil /\
  Z.to_int z <> Decimal.Neg Decimal.Nil.
Proof.
  destruct z as [|p|p]; simpl; split; try discriminate;
    intros H; inversion H as [Hp];
    exact (DecimalPos.Unsigned.to_uint_nonnil p Hp).
Qed.

Lemma str_inj (a b : Z) : str a = str b -> a = b.
Proof.
  unfold str. intros H. apply DecimalZ.to_int_inj.
  destruct (to_int_proper a) as [Ha1 Ha2].
  destruct (to_int_proper b) as [Hb1 Hb2].
  pose proof (NilZero.isi (Z.to_int a) Ha1 Ha2) as Ia.
  pose proof (NilZero.isi (Z.to_int b) Hb1 Hb2) as Ib.
  rewrite H in Ia. rewrite Ia in Ib. now inversion Ib.
Qed.

Lemma string_app_inv_head (s a b : string) :
  String.append s a = String.append s b -> a = b.
Proof.
  induction s as [|c s IH]; simpl; intros H; [assumption|].
  inversion H. now apply IH.
Qed.

Lemma string_length_app (a b : string) :
  String.length (String.append a b)
  = (String.length a + String.length b)%nat.
Proof. induction a as [|c a IH]; simpl; [reflexivity | now rewrite IH]. Qed.

Lemma string_app_inv_tail (t a b : string) :
  String.append a t = String.append b t -> a = b.
Proof.
  revert b. induction a as [|c a IH]; intros [|c' b] H.
  - reflexivity.
  - apply (f_equal String.length) in H.
    rewrite !string_length_app in H. simpl in H. lia.
  - apply (f_equal String.length) in H.
    rewrite !string_length_app in H. simpl in H. lia.
  - simpl in H. inversion H. f_equal. now apply IH.
Qed.

(** X6.  The console can be read back.  Two lines of one kind (and,
    for the subtotals, of one directory; for the per-file lines, of one
    path) show the same text only for the same number, and no line of
    one kind is the text of a line of another kind or of another
    directory. *)
Theorem X6_console_lines_are_unambiguous :
  (forall a b, total_line a = total_line b -> a = b) /\
  (forall d a b, folder_line d a = folder_line d b -> a = b) /\
  (forall fp a b, file_size_line fp a = file_size_line fp b -> a = b) /\
  (forall d d' a b,
      In d ["dist/bin"; "dist/browser"; "dist/common"; "dist/native"] ->
      In d' ["dist/bin"; "dist/browser"; "dist/common"; "dist/native"] ->
      folder_line d a = folder_line d' b -> d = d') /\
  (forall d a b fp s,
      In d ["dist/bin"; "dist/browser"; "dist/common"; "dist/native"] ->
      total_line a <> folder_line d b /\
      total_line a <> file_size_line fp s /\
      folder_line d b <> file_size_line fp s).
Proof.
  split; [|split; [|split; [|split]]].
  - intros a b H. unfold total_line in H.
    apply string_app_inv_head, string_app_inv_tail in H. now apply str_inj.
  - intros d a b H. unfold folder_line in H.
    apply string_app_inv_head, string_app_inv_head, string_app_inv_tail in H.
    now apply str_inj.
  - intros fp a b H. unfold file_size_line in H.
    apply string_app_inv_head, string_app_inv_head in H. now apply str_inj.
  - intros d d' a b Hd Hd' H. unfold folder_line in H.
    cbn [In] in Hd, Hd'.
    destruct Hd as [<-|[<-|[<-|[<-|[]]]]];
      destruct Hd' as [<-|[<-|[<-|[<-|[]]]]];
      try reflexivity; cbn [String.append] in H; discriminate H.
  - intros d a b fp s Hd. unfold total_line, folder_line, file_size_line,
      path_str.
    cbn [In] in Hd.
    destruct Hd as [<-|[<-|[<-|[<-|[]]]]];
      cbn [String.append]; repeat split; discriminate.
Qed.

Lemma X6_witness :
  In "dist/bin" ["dist/bin"; "dist/browser"; "dist/common"; "dist/native"] /\
  total_line 10000 <> folder_line "dist/bin" 10000.
Proof.
  split; [now left|].
  exact (proj1 (proj2 (proj2 (proj2 (proj2
           X6_console_lines_are_unambiguous)))
           "dist/bin" 10000 10000 [] 0 (or_introl eq_refl))).
Defined.

(** *** One more file *)

Lemma listed_iff_resolve (r : node) (top rel : path) (s : Z) :
  well_formed r = true -> rel <> [] ->
  (In (top ++ rel, s) (listing r top)
   <-> resolve r (top ++ rel) = Some (File s)).
Proof.
  intros Hwf Hne. rewrite listing_iff by assumption. split.
  - now intros [rel' [_ [_ H]]].
  - intros H. now exists rel.
Qed.

Lemma listed_below (r : node) (top : path) (ps : path * Z) :
  well_formed r = true -> In ps (listing r top) ->
  exists rel, rel <> [] /\ fst ps = top ++ rel.
Proof.
  intros Hwf Hin. destruct ps as [p s].
  apply listing_iff in Hin as [rel [Hne [Hp _]]]; [|assumption].
  now exists rel.
Qed.

Lemma adds_regular_file_listing (r1 r2 : node) (top p : path) (s : Z) :
  well_formed r1 = true -> well_formed r2 = true ->
  (adds_regular_file r1 r2 top p s <->
   (exists rel, rel <> [] /\ p = top ++ rel) /\
   ~ In p (map fst (listing r1 top)) /\
   (forall ps, In ps (listing r2 top)
               <-> (p, s) = ps \/ In ps (listing r1 top))).
Proof.
  intros H1 H2. unfold adds_regular_file. split.
  - intros [[rel0 [Hne0 Hp]] [Hnew Hiff]]. split; [now exists rel0|]. split.
    + intros Hin. apply in_map_iff in Hin as [[q s'] [Hq Hin]].
      simpl in Hq. subst q. rewrite Hp in Hin.
      apply listed_iff_resolve in Hin; [|assumption..].
      rewrite <- Hp in Hin. exact (Hnew s' Hin).
    + intros [q s']. split.
      * intros Hin.
        destruct (listed_below r2 top _ H2 Hin) as [rel [Hne Hq]].
        simpl in Hq. subst q.
        apply listed_iff_resolve in Hin; [|assumption..].
        apply Hiff in Hin; [|assumption].
        destruct Hin as [[Hq ->]|Hin]; [left; now rewrite Hq|].
        right. now apply listed_iff_resolve.
      * intros [Heq|Hin].
        -- inversion Heq; subst q s'. rewrite Hp.
           apply listed_iff_resolve; [assumption..|].
           apply Hiff; [assumption|]. left. now split.
        -- destruct (listed_below r1 top _ H1 Hin) as [rel [Hne Hq]].
           simpl in Hq. subst q.
           apply listed_iff_resolve; [assumption..|].
           apply Hiff; [assumption|]. right.
           now apply listed_iff_resolve in Hin.
  - intros [[rel0 [Hne0 Hp]] [Hnew Hiff]]. split; [now exists rel0|]. split.
    + intros s' Hr. apply Hnew. rewrite Hp in Hr.
      apply listed_iff_resolve in Hr; [|assumption..].
      rewrite <- Hp in Hr.
      change p with (fst (p, s')). now apply in_map.
    + intros rel s' Hne.
      rewrite <- (listed_iff_resolve r2 top rel s' H2 Hne),
        <- (listed_iff_resolve r1 top rel s' H1 Hne), Hiff.
      split; (intros [Heq|Hin]; [left|now right]).
      * now inversion Heq.
      * destruct Heq as [-> ->]. reflexivity.
Qed.

Lemma subtotal_added (env : Env) (r1 r2 : node) (d p : path) (s : Z) :
  well_formed r1 = true -> well_formed r2 = true ->
  adds_regular_file r1 r2 (os_path_join (project_path env) d) p s ->
  subtotal env r2 d = subtotal env r1 d + s.
Proof.
  intros H1 H2 Hadd.
  apply adds_regular_file_listing in Hadd as [_ [Hnew Hiff]];
    [|assumption..].
  unfold subtotal, tracked_files. rewrite !sum_sizes_listing.
  fold (listing r1 (os_path_join (project_path env) d)).
  fold (listing r2 (os_path_join (project_path env) d)).
  assert (Hperm : Permutation
                    (listing r2 (os_path_join (project_path env) d))
                    ((p, s) :: listing r1 (os_path_join (project_path env) d))).
  { apply NoDup_Permutation.
    - now apply listing_NoDup.
    - constructor; [|now apply listing_NoDup].
      intros Hin. apply Hnew. change p with (fst (p, s)). now apply in_map.
    - intros ps. rewrite Hiff. simpl. intuition congruence. }
  rewrite (sum_Permutation _ _ (Permutation_map snd Hperm)). simpl. lia.
Qed.

(** X7.  On well-formed filesystems: when the second holds, below one
    tracked directory, the regular files of the first and one more file
    of size [s], and below the other three the same regular files, the
    subtotal of that directory and the total are larger by exactly
    [s]. *)
Theorem X7_one_more_file_adds_its_size
  (env : Env) (w1 w2 : World) (d p : path) (s : Z) :
  well_formed (fs w1) = true ->
  well_formed (fs w2) = true ->
  In d tracked_directories ->
  adds_regular_file (fs w1) (fs w2) (os_path_join (project_path env) d) p s ->
  (forall d', In d' tracked_directories -> d' <> d ->
              same_regular_files (fs w1) (fs w2)
                (os_path_join (project_path env) d')) ->
  subtotal env (fs w2) d = subtotal env (fs w1) d + s /\
  sum_sizes (all_tracked_files env (fs w2))
  = sum_sizes (all_tracked_files env (fs w1)) + s /\
  snd (run env w2)
  = (if sum_sizes (all_tracked_files env (fs w1)) + s >? max_size
     then inl (Exception "NPM package exceeds size limit")
     else inr tt).
Proof.
  intros H1 H2 Hd Hadd Hsame.
  pose proof (subtotal_added env _ _ d p s H1 H2 Hadd) as Hsub.
  assert (Hother : forall d', In d' tracked_directories -> d' <> d ->
                              subtotal env (fs w2) d' = subtotal env (fs w1) d').
  { intros d' Hd' Hne. symmetry. apply subtotal_same; auto. }
  assert (Htot : sum_sizes (all_tracked_files env (fs w2))
                 = sum_sizes (all_tracked_files env (fs w1)) + s).
  { rewrite !grand_total_all. unfold grand_total.
    cbn [In tracked_directories] in Hd.
    destruct Hd as [<-|[<-|[<-|[<-|[]]]]]; rewrite Hsub;
      rewrite !Hother by (first [discriminate | simpl; tauto]); lia. }
  split; [exact Hsub|]. split; [exact Htot|].
  rewrite run_result by assumption. rewrite <- grand_total_all, Htot.
  reflexivity.
Qed.

Lemma X7_witness :
  well_formed (fs (world_of scenario_fs)) = true /\
  well_formed (fs (world_of grown_fs)) = true /\
  snd (run sample_env (world_of scenario_fs)) = inr tt /\
  snd (run sample_env (world_of grown_fs)) =
  inl (Exception "NPM package exceeds size limit").
Proof.
  split; [reflexivity|]. split; [reflexivity|]. split; [reflexivity|].
  apply (X7_one_more_file_adds_its_size sample_env (world_of scenario_fs)
           (world_of grown_fs) dist_bin
           ["proj"; "dist"; "bin"; "linux-x64"; "aws-crt-nodejs.node"]
           4990001 eq_refl eq_refl).
  - now left.
  - apply (proj2 (adds_regular_file_listing scenario_fs grown_fs _ _ _
                    eq_refl eq_refl)).
    split; [|split].
    + exists ["linux-x64"; "aws-crt-nodejs.node"]. split;
        [discriminate | reflexivity].
    + vm_compute. intros [H|[H|[]]]; discriminate H.
    + intros ps. vm_compute. tauto.
  - intros d' Hd' Hne.
    apply (proj2 (listing_same scenario_fs grown_fs _ eq_refl eq_refl)).
    simpl in Hd'. destruct Hd' as [<-|[<-|[<-|[<-|[]]]]];
      [now elim Hne | | |]; intros ps; vm_compute; tauto.
Defined.

(** *** Where the audit looks *)

Lemma in_folder_trace (events_of : file_entry -> list event)
  (env : Env) (root : node) (d : path) (label : string) (e : event) :
  (forall x e', In e' (events_of x) ->
                e' = EStat (entry_path x) \/ exists line, e' = EPrint line) ->
  In e (folder_trace events_of env root d label) ->
  e = EWalk (os_path_join (project_path env) d) \/
  (exists x, In x (tracked_files env root d) /\ e = EStat (entry_path x)) \/
  (exists line, e = EPrint line).
Proof.
  intros Hev Hin. unfold folder_trace in Hin.
  destruct Hin as [<-|Hin]; [now left|]. right.
  apply in_app_or in Hin as [Hin|[<-|[]]].
  - apply in_flat_map in Hin as [x [Hx He]].
    destruct (Hev x e He) as [->|Hp]; [left; now exists x | now right].
  - right. eauto.
Qed.

Lemma in_plain_events (x : file_entry) (e : event) :
  In e (plain_events x) ->
  e = EStat (entry_path x) \/ exists line, e = EPrint line.
Proof. intros [<-|[]]. now left. Qed.

Lemma in_bin_events (x : file_entry) (e : event) :
  In e (bin_events x) ->
  e = EStat (entry_path x) \/ exists line, e = EPrint line.
Proof.
  unfold bin_events. destruct (is_artifact x).
  - intros [<-|[<-|[<-|[]]]]; [now left | right; eauto | now left].
  - intros [<-|[]]. now left.
Qed.

Lemma in_audit_trace (env : Env) (root : node) (e : event) :
  In e (audit_trace env root) ->
  (exists d, In d tracked_directories /\
             (e = EWalk (os_path_join (project_path env) d) \/
              exists x, In x (tracked_files env root d)
                        /\ e = EStat (entry_path x))) \/
  (exists line, e = EPrint line).
Proof.
  unfold audit_trace. rewrite !in_app_iff.
  intros [H|[H|[H|[H|[<-|[]]]]]]; [| | | |right; eauto];
    apply in_folder_trace in H;
    try apply in_plain_events; try apply in_bin_events;
    (destruct H as [H|[H|H]]; [left|left|now right]);
    [exists dist_bin | exists dist_bin
     | exists dist_browser | exists dist_browser
     | exists dist_common | exists dist_common
     | exists dist_native | exists dist_native];
    (split; [simpl; tauto|]); (now left) || (now right).
Qed.

(** X8.  On a well-formed filesystem a run walks the four tracked
    directories and nothing else, and every path it hands to [os.stat]
    lies strictly below one of them and is a regular file: nothing
    outside the tracked directories is read, and no directory is asked
    for its size. *)
Theorem X8_reads_stay_below_tracked_directories (env : Env) (w : World) :
  well_formed (fs w) = true ->
  exists evs,
    trace (fst (run env w)) = trace w ++ evs /\
    (forall top, In (EWalk top) evs ->
                 exists d, In d tracked_directories /\
                           top = project_path env ++ d) /\
    (forall p, In (EStat p) evs ->
               exists d rel s,
                 In d tracked_directories /\ rel <> [] /\
                 p = project_path env ++ d ++ rel /\
                 resolve (fs w) p = Some (File s)).
Proof.
  intros Hwf. exists (audit_trace env (fs w)).
  split; [now apply run_trace|]. split.
  - intros top Hin.
    apply in_audit_trace in Hin as [[d [Hd [He|[x [_ He]]]]]|[line He]];
      try discriminate He.
    inversion He. now exists d.
  - intros p Hin.
    apply in_audit_trace in Hin as [[d [Hd [He|[x [Hx He]]]]]|[line He]];
      try discriminate He.
    inversion He; subst p.
    destruct (proj1 (all_tracked_files_iff env (fs w) (entry_path x)
                       (entry_size x) Hwf)) as [d' [rel [Hd' [Hne [Hp Hr]]]]].
    + exists x. repeat split. apply in_flat_map. now exists d.
    + now exists d', rel, (entry_size x).
Qed.

Lemma X8_witness :
  well_formed (fs (world_of shuffled_fs)) = true /\
  exists evs,
    trace (fst (run sample_env (world_of shuffled_fs)))
    = trace (world_of shuffled_fs) ++ evs /\
    ~ In (EStat ["proj"; "dist"; "LICENSE"]) evs.
Proof.
  split; [reflexivity|].
  destruct (X8_reads_stay_below_tracked_directories sample_env
              (world_of shuffled_fs) eq_refl) as [evs [Htr [_ Hstat]]].
  exists evs. split; [exact Htr|].
  intros Hin. destruct (Hstat _ Hin) as [d [rel [s [Hd [Hne [Hp _]]]]]].
  simpl in Hd. destruct Hd as [<-|[<-|[<-|[<-|[]]]]]; discriminate Hp.
Defined.
